(** * httpeeve: a retrying HTTP client on top of cenkalti/backoff

    Shallow embedding of [httpeeve.go] (the version whose classifier type is
    [Conditioner]) and verification of its retry engine, its error
    classifier, its default response classifier and its attempt accessor.

    Go values are modelled as follows.
    - [int] is a 64-bit two's complement integer kept as a [Z], with the
      wrap-around of [attempts++] written out ([int_incr]).
    - a pointer that the code dereferences ([*http.Response],
      [Response.Request]) is an [option]; dereferencing [None] panics.
    - a Go [error] is its [Error()] text together with the [net.Error]
      methods when its dynamic type has them, or a [*backoff.PermanentError]
      around another error.
    - the http client and the backoff policy are interfaces with hidden
      state: type classes over a state type, threaded explicitly.
    - a call that may panic or loop is a computation in a small monad over
      the state of these two collaborators and a log of what was called. *)

From Stdlib Require Import ZArith List String Ascii Bool Lia.
From Stdlib Require Import DecimalString.
Import ListNotations.

Local Open Scope Z_scope.
Local Open Scope string_scope.
Local Open Scope list_scope.

(** ** Go's [int] *)

Module GoInt.

Definition intSize : Z := 64.
Definition MaxInt : Z := 2 ^ (intSize - 1) - 1.
Definition MinInt : Z := - 2 ^ (intSize - 1).

(** Two's complement reduction of a mathematical integer to [int]. *)
Definition wrap (z : Z) : Z :=
  (z - MinInt) mod 2 ^ intSize + MinInt.

(** [x++] on an [int]. *)
Definition int_incr (x : Z) : Z := wrap (x + 1).

(** The decimal text [%d] prints. *)
Definition itoa (z : Z) : string := NilZero.string_of_int (Z.to_int z).

End GoInt.
Import GoInt.

(** ** package strings *)

Module strings.

Fixpoint HasPrefix (s prefix : string) {struct prefix} : bool :=
  match prefix with
  | EmptyString => true
  | String c prefix' =>
      match s with
      | EmptyString => false
      | String d s' => Ascii.eqb d c && HasPrefix s' prefix'
      end
  end.

(** [strings.Contains(s, substr)]: [substr] occurs somewhere within [s]. *)
Fixpoint Contains (s substr : string) : bool :=
  HasPrefix s substr ||
  match s with
  | EmptyString => false
  | String _ s' => Contains s' substr
  end.

End strings.

(** ** Errors *)

(** The two methods [net.Error] adds to [error]. *)
Record net_Error : Type := mk_net_Error {
  Timeout : bool;
  Temporary : bool
}.

(** A Go [error] value as this program observes it. An ordinary error is
    the text of [Error()] and, when the dynamic type implements [net.Error],
    its two flags. Any caller may also hand over the result of
    [backoff.Permanent]: a [*backoff.PermanentError] around another error. *)
Inductive error : Type :=
| mk_error (text : string) (net : option net_Error)
| mk_PermanentError (Err : error).

(** [err.Error()]; a [*PermanentError] answers with the text of its inner
    error. *)
Fixpoint Error (err : error) : string :=
  match err with
  | mk_error text _ => text
  | mk_PermanentError Err => Error Err
  end.

(** The type assertion [err.(net.Error)]; a [*PermanentError] has neither
    [Timeout] nor [Temporary]. *)
Definition as_net_Error (err : error) : option net_Error :=
  match err with
  | mk_error _ net => net
  | mk_PermanentError _ => None
  end.

(** The type assertion of [err] to [*backoff.PermanentError], giving the
    inner error. *)
Definition as_PermanentError (err : error) : option error :=
  match err with
  | mk_error _ _ => None
  | mk_PermanentError Err => Some Err
  end.

(** ** package backoff (github.com/cenkalti/backoff): data *)

Module backoff.

(** How the operation given to [Retry] builds the error it returns:
    [Plain err] is the value [err] handed on untouched, whatever its dynamic
    type, and [PermanentError Err] is a new [*PermanentError] around
    [Err]. *)
Inductive op_error : Type :=
| Plain (err : error)
| PermanentError (Err : error).

(** [backoff.Permanent] *)
Definition Permanent (err : error) : op_error := PermanentError err.

(** The error value that the operation returned. *)
Definition value (oe : op_error) : error :=
  match oe with
  | Plain err => err
  | PermanentError Err => mk_PermanentError Err
  end.

(** The type assertion to [*PermanentError] that [Retry] makes on that
    value. *)
Definition as_permanent (oe : op_error) : option error :=
  as_PermanentError (value oe).

(** [time.Duration], and the value [Stop] by which [NextBackOff] says that
    no further attempt is to be made. *)
Definition Duration : Type := Z.
Definition Stop : Duration := -1.

(** The [BackOff] interface; [B] is the hidden state of the policy. *)
Class BackOff (B : Type) : Type := {
  Reset : B -> B;
  NextBackOff : B -> Duration * B
}.

End backoff.

(** [errors.New] of pkg/errors: a fresh error that is not a [net.Error]. *)
Definition errors_New (msg : string) : error :=
  mk_error msg None.

(** [fmt.Sprintf] restricted to what the source passes it: integer
    arguments, the verb [%d] and the escape [%%]; every other character is
    copied. *)
Fixpoint Sprintf (format : string) (values : list Z) : string :=
  match format with
  | EmptyString => EmptyString
  | String c rest =>
      match rest with
      | String d rest' =>
          if (Ascii.eqb c "%" && Ascii.eqb d "d")%bool then
            match values with
            | v :: values' => (itoa v ++ Sprintf rest' values')%string
            | [] => ("%!d(MISSING)" ++ Sprintf rest' [])%string
            end
          else if (Ascii.eqb c "%" && Ascii.eqb d "%")%bool then
            String "%" (Sprintf rest' values)
          else String c (Sprintf rest values)
      | EmptyString => String c EmptyString
      end
  end.

(** [fmt.Errorf] *)
Definition fmt_Errorf (format : string) (values : list Z) : error :=
  mk_error (Sprintf format values) None.

(** ** The error classifier *)

Definition categorizeRequestError (reqErr : error) : backoff.op_error :=
  if strings.Contains (Error reqErr) "EOF" then backoff.Plain reqErr
  else
    match as_net_Error reqErr with
    | Some specificErr =>
        if (Timeout specificErr || Temporary specificErr)%bool
        then backoff.Plain reqErr
        else backoff.Permanent reqErr
    | None => backoff.Permanent reqErr
    end.

(** The three signs of a transient failure. *)
Definition mentions_EOF (err : error) : Prop :=
  exists pre post, Error err = (pre ++ "EOF" ++ post)%string.

Definition net_timeout (err : error) : Prop :=
  exists e, as_net_Error err = Some e /\ Timeout e = true.

Definition net_temporary (err : error) : Prop :=
  exists e, as_net_Error err = Some e /\ Temporary e = true.

Definition transient (err : error) : Prop :=
  mentions_EOF err \/ net_timeout err \/ net_temporary err.

(** The classifier as the earlier revision of the file writes it (the
    copy that names the classifier type [backoffConditioner]): the two
    flags are tested one after the other in an if / else-if chain. *)
Module Earlier.

Definition categorizeRequestError (reqErr : error) : backoff.op_error :=
  if strings.Contains (Error reqErr) "EOF" then backoff.Plain reqErr
  else
    match as_net_Error reqErr with
    | Some specificErr =>
        if Timeout specificErr then backoff.Plain reqErr
        else if Temporary specificErr then backoff.Plain reqErr
        else backoff.Permanent reqErr
    | None => backoff.Permanent reqErr
    end.

End Earlier.

(** ** Conditioner results *)

(** The pair [(shouldRetry bool, err error)] a [Conditioner] returns. *)
Definition cond_result : Type := (bool * option error)%type.

Definition OK : cond_result := (false, None).

Definition RetriableError (msg : string) : cond_result :=
  (true, Some (errors_New msg)).

Definition RetriableErrorf (msg : string) (values : list Z) : cond_result :=
  (true, Some (fmt_Errorf msg values)).

Definition PermanentError (msg : string) : cond_result :=
  (false, Some (errors_New msg)).

Definition PermanentErrorf (msg : string) (values : list Z) : cond_result :=
  (false, Some (fmt_Errorf msg values)).

(** ** package context *)

Module context.

(** Context keys are compared with [==]. [contextKeyAttempts] is the value
    [contextKeyAttempts{}] of this package's unexported key type; every
    other key is some foreign value. *)
Inductive Key : Type :=
| contextKeyAttempts
| foreignKey (name : string).

Definition Key_eqb (k1 k2 : Key) : bool :=
  match k1, k2 with
  | contextKeyAttempts, contextKeyAttempts => true
  | foreignKey n1, foreignKey n2 => String.eqb n1 n2
  | _, _ => false
  end.

(** An [interface{}] value as far as the type assertion [.(int)] can tell. *)
Inductive Any : Type :=
| AnyNil
| AnyInt (i : Z)
| AnyOther (description : string).

(** A context is the chain of [WithValue] bindings above [Background],
    innermost first. *)
Definition Context : Type := list (Key * Any).

Definition Background : Context := [].

Definition WithValue (parent : Context) (key : Key) (val : Any) : Context :=
  (key, val) :: parent.

(** [ctx.Value(key)]: the innermost binding of [key], [nil] when none. *)
Fixpoint Value (ctx : Context) (key : Key) : Any :=
  match ctx with
  | [] => AnyNil
  | (k, v) :: parent => if Key_eqb k key then v else Value parent key
  end.

(** A context carries a key when some [WithValue] in its chain bound it. *)
Definition carries (c : Context) (key : Key) : Prop :=
  exists v, In (key, v) c.

(** The two-result type assertion [v.(int)]. *)
Definition assert_int (v : Any) : Z * bool :=
  match v with
  | AnyInt i => (i, true)
  | _ => (0, false)
  end.

End context.

(** ** package net/http *)

Module http.

Record Request : Type := mk_Request {
  Method : string;
  URL : string;
  ctx : option context.Context
}.

(** [Request.Context] *)
Definition Context (r : Request) : context.Context :=
  match ctx r with
  | Some c => c
  | None => context.Background
  end.

(** [Request.WithContext]: a shallow copy with the context replaced. *)
Definition WithContext (r : Request) (c : context.Context) : Request :=
  {| Method := Method r; URL := URL r; ctx := Some c |}.

(** [Request] is a pointer field of the response and may be nil. *)
Record Response : Type := mk_Response {
  StatusCode : Z;
  Request_ : option Request
}.

(** What [Client.Do] hands back. A nil response never comes with a nil
    error, so the pairs are [(resp, nil)] and [(resp or nil, err)]. *)
Inductive DoResult : Type :=
| DoOk (resp : Response)
| DoErr (resp : option Response) (err : error).

(** The client, with hidden state [T] (connections, the server behind). *)
Class Client (T : Type) : Type := {
  Do : T -> Request -> DoResult * T
}.

End http.

(** ** Computations that may panic or run out of fuel *)

(** A function without collaborators either returns or panics. *)
Inductive result (A : Type) : Type :=
| Ok (a : A)
| Panic (msg : string).
Arguments Ok {A} a.
Arguments Panic {A} msg.

Definition nil_dereference : string :=
  "runtime error: invalid memory address or nil pointer dereference".

Inductive Res (W A : Type) : Type :=
| Returns (a : A) (w : W)
| Panics (msg : string) (w : W)
| OutOfFuel.
Arguments Returns {W A} a w.
Arguments Panics {W A} msg w.
Arguments OutOfFuel {W A}.

Definition M (W A : Type) : Type := W -> Res W A.

Definition ret {W A} (a : A) : M W A := fun w => Returns a w.

Definition bind {W A B} (m : M W A) (k : A -> M W B) : M W B :=
  fun w =>
    match m w with
    | Returns a w' => k a w'
    | Panics msg w' => Panics msg w'
    | OutOfFuel => OutOfFuel
    end.

Definition lift {W A} (r : result A) : M W A :=
  fun w =>
    match r with
    | Ok a => Returns a w
    | Panic msg => Panics msg w
    end.

Declare Scope go_scope.
Delimit Scope go_scope with go.
Notation "x <- m ;; k" := (bind m (fun x => k))
  (at level 61, m at next level, right associativity) : go_scope.
Notation "' pat <- m ;; k" := (bind m (fun x => match x with pat => k end))
  (at level 61, pat pattern, m at next level, right associativity) : go_scope.
Notation "m ;;; k" := (bind m (fun _ => k))
  (at level 61, right associativity) : go_scope.

(** ** Attempt tracking *)

Definition Attempts (resp : option http.Response) : result Z :=
  match resp with
  | None => Panic nil_dereference
  | Some r =>
      match http.Request_ r with
      | None => Panic nil_dereference
      | Some rq =>
          let (attempts, _) :=
            context.assert_int
              (context.Value (http.Context rq) context.contextKeyAttempts) in
          Ok attempts
      end
  end.

(** The response is updated in place through the pointer; the model
    returns the updated response. *)
Definition addAttemptsToRequest (resp : option http.Response) (attempts : Z)
  : result http.Response :=
  match resp with
  | None => Panic nil_dereference
  | Some r =>
      match http.Request_ r with
      | None => Panic nil_dereference
      | Some rq =>
          Ok {| http.StatusCode := http.StatusCode r;
                http.Request_ :=
                  Some (http.WithContext rq
                          (context.WithValue (http.Context rq)
                             context.contextKeyAttempts
                             (context.AnyInt attempts))) |}
      end
  end.

(** ** The retry engine *)

(** What the engine does to its collaborators, in order. [EvDo a] is a call
    of [httpClient.Do] made while the counter [attempts] holds [a]. *)
Inductive Event : Type :=
| EvReset
| EvDo (attempts : Z)
| EvNextBackOff (next : backoff.Duration)
| EvSleep (d : backoff.Duration).

Definition is_Do (e : Event) : bool :=
  match e with
  | EvDo _ => true
  | _ => false
  end.

Definition is_NextBackOff (e : Event) : bool :=
  match e with
  | EvNextBackOff _ => true
  | _ => false
  end.

(** Number of transport invocations recorded in a log. *)
Definition invocations (evs : list Event) : nat :=
  List.length (filter is_Do evs).

(** Number of times the scheduler was asked for a delay. *)
Definition consultations (evs : list Event) : nat :=
  List.length (filter is_NextBackOff evs).

(** The values the counter held at the successive transport invocations. *)
Fixpoint counter_values (evs : list Event) : list Z :=
  match evs with
  | [] => []
  | EvDo a :: evs' => a :: counter_values evs'
  | _ :: evs' => counter_values evs'
  end.

(** The log of [n] attempts that were each followed by a granted delay:
    the counter stood at [a] before the first of them and [ds] are the
    delays. *)
Fixpoint retry_events (a : Z) (ds : list backoff.Duration) : list Event :=
  match ds with
  | [] => []
  | d :: ds' =>
      EvDo (int_incr a) :: EvNextBackOff d :: EvSleep d
        :: retry_events (int_incr a) ds'
  end.

Section Engine.

Context {T B : Type} {client_T : http.Client T} {backoff_B : backoff.BackOff B}.

Record World : Type := mk_World {
  httpClient : T;
  backoffer : B;
  log : list Event
}.

Definition emit (w : World) (e : Event) : list Event := log w ++ [e].

Definition httpClient_Do (req : http.Request) (attempts : Z)
  : M World http.DoResult :=
  fun w =>
    let (o, t') := http.Do (httpClient w) req in
    Returns o {| httpClient := t'; backoffer := backoffer w;
                 log := emit w (EvDo attempts) |}.

Definition backoffer_Reset : M World unit :=
  fun w =>
    Returns tt {| httpClient := httpClient w;
                  backoffer := backoff.Reset (backoffer w);
                  log := emit w EvReset |}.

Definition backoffer_NextBackOff : M World backoff.Duration :=
  fun w =>
    let (next, b') := backoff.NextBackOff (backoffer w) in
    Returns next {| httpClient := httpClient w; backoffer := b';
                    log := emit w (EvNextBackOff next) |}.

(** Waiting for the timer. *)
Definition sleep (d : backoff.Duration) : M World unit :=
  fun w =>
    Returns tt {| httpClient := httpClient w; backoffer := backoffer w;
                  log := emit w (EvSleep d) |}.

(** The variables of the enclosing function that the closure captures. *)
Record Locals : Type := mk_Locals {
  resp : option http.Response;
  attempts : Z
}.

Definition Operation : Type := Locals -> M World (option backoff.op_error * Locals).

Local Open Scope go_scope.

(** Modelled from the spec: [backoff.Retry] belongs to the library
    github.com/cenkalti/backoff, which the sources import and do not
    contain. It resets the policy and then runs the operation until it
    returns nil, returns an error whose dynamic type is [*PermanentError]
    (whose inner error is handed back without asking the policy), or the
    policy answers [Stop] (the error of that attempt is handed back);
    otherwise it sleeps for the delay and goes round again. [fuel] bounds
    the number of rounds. *)
Fixpoint RetryLoop (fuel : nat) (o : Operation) (l : Locals)
  : M World (option error * Locals) :=
  match fuel with
  | O => fun _ => OutOfFuel
  | S fuel' =>
      '(err, l') <- o l ;;
      match err with
      | None => ret (None, l')
      | Some oe =>
          match backoff.as_permanent oe with
          | Some e => ret (Some e, l')
          | None =>
              next <- backoffer_NextBackOff ;;
              if (next =? backoff.Stop)%Z then ret (Some (backoff.value oe), l')
              else sleep next ;;; RetryLoop fuel' o l'
          end
      end
  end.

Definition Retry (fuel : nat) (o : Operation) (l : Locals)
  : M World (option error * Locals) :=
  backoffer_Reset ;;; RetryLoop fuel o l.

Variable conditioner : http.Response -> cond_result.

(** The closure passed to [backoff.Retry] in [NewBackoffClient]. The
    conditioner's error is returned untouched when a retry is asked for
    ([backoff.Plain]), and inside a new [*PermanentError] otherwise. *)
Definition operation (req : http.Request) : Operation :=
  fun l =>
    let attempts1 := int_incr (attempts l) in
    r <- httpClient_Do req attempts1 ;;
    match r with
    | http.DoErr resp1 reqErr =>
        ret (Some (categorizeRequestError reqErr),
             {| resp := resp1; attempts := attempts1 |})
    | http.DoOk resp1 =>
        let l1 := {| resp := Some resp1; attempts := attempts1 |} in
        let (shouldRetry, reqErr) := conditioner resp1 in
        match reqErr with
        | None => ret (None, l1)
        | Some e =>
            if shouldRetry then ret (Some (backoff.Plain e), l1)
            else ret (Some (backoff.Permanent e), l1)
        end
    end.

(** The state of a call before its first attempt: [var resp *http.Response]
    and [var attempts int] hold their zero values. *)
Definition locals0 : Locals := {| resp := None; attempts := 0 |}.

(** Lines 37 to 58: the call of [backoff.Retry]. *)
Definition retrying (fuel : nat) (req : http.Request)
  : M World (option error * Locals) :=
  Retry fuel (operation req) locals0.

(** [NewBackoffClient(httpClient, backoffer, conditioner).Do(req)] *)
Definition NewBackoffClient_Do (fuel : nat) (req : http.Request)
  : M World (option http.Response * option error) :=
  '(err, l) <- retrying fuel req ;;
  resp' <- lift (addAttemptsToRequest (resp l) (attempts l)) ;;
  ret (Some resp', err).

(** *** Sequences of answers of the collaborators *)

(** The outcomes of the next [n] transport invocations. *)
Fixpoint outcomes (n : nat) (t : T) (req : http.Request)
  : list http.DoResult :=
  match n with
  | O => []
  | S n' => let (o, t') := http.Do t req in o :: outcomes n' t' req
  end.

Fixpoint client_after (n : nat) (t : T) (req : http.Request) : T :=
  match n with
  | O => t
  | S n' => client_after n' (snd (http.Do t req)) req
  end.

(** The answers to the next [n] calls of [NextBackOff]. *)
Fixpoint delays (n : nat) (b : B) : list backoff.Duration :=
  match n with
  | O => []
  | S n' => let (d, b') := backoff.NextBackOff b in d :: delays n' b'
  end.

Fixpoint backoffer_after (n : nat) (b : B) : B :=
  match n with
  | O => b
  | S n' => backoffer_after n' (snd (backoff.NextBackOff b))
  end.

(** The scheduler grants a delay. *)
Definition granted (d : backoff.Duration) : Prop := d <> backoff.Stop.

(** The response pointer an outcome leaves in [resp]. *)
Definition resp_of (o : http.DoResult) : option http.Response :=
  match o with
  | http.DoOk r => Some r
  | http.DoErr r _ => r
  end.

(** An attempt that is classified Retry: a response for which the
    conditioner says (true, non-nil), or a transport error that the error
    classifier hands back unwrapped; in either case the error is not a
    [*backoff.PermanentError], which would end the call instead. *)
Definition retried (o : http.DoResult) : Prop :=
  match o with
  | http.DoOk r =>
      exists e, conditioner r = (true, Some e) /\ as_PermanentError e = None
  | http.DoErr _ err =>
      categorizeRequestError err = backoff.Plain err /\
      as_PermanentError err = None
  end.

(** The world in which round [n + 1] of a call begins, when the [n] rounds
    before it were retried. *)
Definition world_at (req : http.Request) (n : nat) (w : World) : World :=
  {| httpClient := client_after n (httpClient w) req;
     backoffer := backoffer_after n (backoff.Reset (backoffer w));
     log := log w ++ EvReset
              :: retry_events 0 (delays n (backoff.Reset (backoffer w))) |}.

Definition locals_at (req : http.Request) (n : nat) (w : World) : Locals :=
  {| resp := fold_left (fun _ o => resp_of o)
               (outcomes n (httpClient w) req) None;
     attempts := Nat.iter n int_incr 0 |}.

(** What an attempt with outcome [o] makes the operation return; the
    lemma [operation_step] shows that [operation] computes it. *)
Definition verdict (o : http.DoResult) : option backoff.op_error :=
  match o with
  | http.DoErr _ reqErr => Some (categorizeRequestError reqErr)
  | http.DoOk r =>
      match conditioner r with
      | (_, None) => None
      | (true, Some e) => Some (backoff.Plain e)
      | (false, Some e) => Some (backoff.Permanent e)
      end
  end.

(** Whether the last round, with outcome [o], asks the scheduler: the
    operation returned an error that is not a [*PermanentError]. *)
Definition asks_scheduler (o : http.DoResult) : bool :=
  match verdict o with
  | Some oe =>
      match backoff.as_permanent oe with
      | Some _ => false
      | None => true
      end
  | None => false
  end.

(** The last round of a call ends the loop: the operation returned nil or
    a permanent error, or it returned another error and the scheduler's
    answer [d] was [Stop]. *)
Definition terminal (o : http.DoResult) (d : backoff.Duration) : Prop :=
  asks_scheduler o = true -> d = backoff.Stop.

(** The error with which the loop ends on an attempt with outcome [o]:
    nil when the operation returned nil, the inner error when it returned a
    [*PermanentError], and otherwise the error it returned. *)
Definition error_of (o : http.DoResult) : option error :=
  match verdict o with
  | None => None
  | Some oe =>
      match backoff.as_permanent oe with
      | Some e => Some e
      | None => Some (backoff.value oe)
      end
  end.

(** The events of the last round: the invocation, and the scheduler's
    [Stop] when the round was a retriable one. *)
Definition last_events (a : Z) (stopped : bool) : list Event :=
  if stopped then [EvDo a; EvNextBackOff backoff.Stop] else [EvDo a].

(** [r'] is the response [r] with a count attached: nothing else differs. *)
Definition attached (r r' : http.Response) : Prop :=
  http.StatusCode r' = http.StatusCode r /\
  exists rq rq',
    http.Request_ r = Some rq /\ http.Request_ r' = Some rq' /\
    http.Method rq' = http.Method rq /\ http.URL rq' = http.URL rq /\
    forall key, key <> context.contextKeyAttempts ->
      context.Value (http.Context rq') key = context.Value (http.Context rq) key.

End Engine.

Arguments World T B : clear implicits.
Arguments Operation T B : clear implicits.

(** ** The default conditioner *)

(** The function literal of [NewDefaultBackoffClient5XX]. *)
Definition defaultConditioner (resp : http.Response) : cond_result :=
  if ((500 <=? http.StatusCode resp) && (http.StatusCode resp <? 600))%Z then
    RetriableErrorf "bad status code %d" [http.StatusCode resp]
  else if ((200 <=? http.StatusCode resp) && (http.StatusCode resp <? 300))%Z then
    OK
  else
    PermanentErrorf "bad status code %d" [http.StatusCode resp].

(** The diagnostic [fmt.Errorf("bad status code %d", code)]. *)
Definition bad_status_code (code : Z) : error :=
  mk_error ("bad status code " ++ itoa code)%string None.

(** [NewDefaultBackoffClient5XX(httpClient).Do(req)]; the policy [B] stands
    for [backoff.NewExponentialBackOff()]. *)
Definition NewDefaultBackoffClient5XX_Do {T B : Type}
  {client_T : http.Client T} {backoff_B : backoff.BackOff B}
  (fuel : nat) (req : http.Request)
  : M (World T B) (option http.Response * option error) :=
  NewBackoffClient_Do defaultConditioner fuel req.

(** ** Scripted collaborators, for running the engine on concrete inputs *)

Module Script.

(** A client that answers from a script, and refuses the connection once
    the script is used up. *)
Definition refused : error :=
  mk_error "dial tcp 127.0.0.1:80: connect: connection refused"
    (Some {| Timeout := false; Temporary := false |}).

#[export] Instance scripted_Client : http.Client (list http.DoResult) := {
  Do script _ :=
    match script with
    | [] => (http.DoErr None refused, [])
    | o :: script' => (o, script')
    end
}.

(** A policy that grants the delays of [plan] one by one and then stops. *)
Record Plan : Type := mk_Plan {
  plan : list backoff.Duration;
  remaining : list backoff.Duration
}.

#[export] Instance planned_BackOff : backoff.BackOff Plan := {
  Reset p := {| plan := plan p; remaining := plan p |};
  NextBackOff p :=
    match remaining p with
    | [] => (backoff.Stop, p)
    | d :: ds => (d, {| plan := plan p; remaining := ds |})
    end
}.

(** A server that gives the same answer to every request. *)
Record Steady : Type := mk_Steady { answer : http.DoResult }.

#[export] Instance steady_Client : http.Client Steady := {
  Do t _ := (answer t, t)
}.

(** [backoff.ConstantBackOff]: the same interval for ever. *)
Record ConstantBackOff : Type := mk_ConstantBackOff {
  Interval : backoff.Duration
}.

#[export] Instance constant_BackOff : backoff.BackOff ConstantBackOff := {
  Reset b := b;
  NextBackOff b := (Interval b, b)
}.

Definition new_Plan (ds : list backoff.Duration) : Plan :=
  {| plan := ds; remaining := [] |}.

Definition world (script : list http.DoResult) (ds : list backoff.Duration)
  : World (list http.DoResult) Plan :=
  {| httpClient := script; backoffer := new_Plan ds; log := [] |}.

Definition get : http.Request :=
  {| http.Method := "GET"; http.URL := "http://127.0.0.1/"; http.ctx := None |}.

Definition status (code : Z) : http.Response :=
  {| http.StatusCode := code; http.Request_ := Some get |}.

(** A response as a round tripper that does not fill in [Request] leaves
    it. *)
Definition bare (code : Z) : http.Response :=
  {| http.StatusCode := code; http.Request_ := None |}.

(** A conditioner that asks for a retry with an error made by
    [backoff.Permanent]. *)
Definition retry_permanent (msg : string) (_ : http.Response) : cond_result :=
  (true, Some (mk_PermanentError (errors_New msg))).

Definition timeout : error :=
  mk_error "net/http: request canceled (Client.Timeout exceeded)"
    (Some {| Timeout := true; Temporary := true |}).

Definition unexpected_EOF : error :=
  mk_error "unexpected EOF" None.

Definition unsupported_scheme : error :=
  mk_error "unsupported protocol scheme" None.

End Script.

(** * Verification *)

(** ** Integers *)

Lemma wrap_small (z : Z) : MinInt <= z <= MaxInt -> wrap z = z.
Proof.
  unfold wrap, MinInt, MaxInt, intSize. intros Hz.
  rewrite Z.mod_small; lia.
Qed.

Lemma wrap_incr (x : Z) : int_incr (wrap x) = wrap (x + 1).
Proof.
  unfold int_incr, wrap.
  replace ((x - MinInt) mod 2 ^ intSize + MinInt + 1 - MinInt)
    with ((x - MinInt) mod 2 ^ intSize + 1) by lia.
  rewrite Zplus_mod_idemp_l. f_equal. f_equal. lia.
Qed.

(** [k] increments, one after the other. *)
Lemma iter_incr (k : nat) (a : Z) :
  Nat.iter (S k) int_incr a = wrap (a + Z.of_nat (S k)).
Proof.
  induction k as [|k IH].
  - reflexivity.
  - change (Nat.iter (S (S k)) int_incr a)
      with (int_incr (Nat.iter (S k) int_incr a)).
    rewrite IH, wrap_incr. f_equal. lia.
Qed.

Lemma iter_incr_small (k : nat) (a : Z) :
  MinInt <= a -> a + Z.of_nat k <= MaxInt ->
  Nat.iter k int_incr a = a + Z.of_nat k.
Proof.
  intros Hlo Hhi. destruct k as [|k].
  - simpl. lia.
  - rewrite iter_incr. apply wrap_small. lia.
Qed.

(** ** Substrings *)

Lemma HasPrefix_spec (s prefix : string) :
  strings.HasPrefix s prefix = true <-> exists post, s = (prefix ++ post)%string.
Proof.
  revert s. induction prefix as [|c prefix IH]; intros s; simpl.
  - split; [intros _; exists s; reflexivity | reflexivity].
  - destruct s as [|d s].
    + split; [discriminate | intros [post H]; discriminate].
    + rewrite andb_true_iff, Ascii.eqb_eq, IH. split.
      * intros [-> [post ->]]. exists post. reflexivity.
      * intros [post H]. injection H as -> ->. split; [reflexivity | eauto].
Qed.

(** [strings.Contains] finds exactly the strings that have [substr] between
    some text before and some text after. *)
Lemma Contains_spec (s substr : string) :
  strings.Contains s substr = true <->
  exists pre post, s = (pre ++ substr ++ post)%string.
Proof.
  induction s as [|d s IH].
  - cbn [strings.Contains]. rewrite orb_false_r, HasPrefix_spec. split.
    + intros [post H]. exists "", post. exact H.
    + intros [pre [post H]]. destruct pre; [eauto | discriminate].
  - cbn [strings.Contains]. rewrite orb_true_iff, HasPrefix_spec, IH. split.
    + intros [[post H] | [pre [post H]]].
      * exists "", post. exact H.
      * exists (String d pre), post. rewrite H. reflexivity.
    + intros [pre [post H]]. destruct pre as [|c pre].
      * left. exists post. exact H.
      * right. injection H as _ H. eauto.
Qed.

(** ** The error classifier *)

Lemma categorizeRequestError_cases (err : error) :
  categorizeRequestError err = backoff.Plain err \/
  categorizeRequestError err = backoff.Permanent err.
Proof.
  unfold categorizeRequestError.
  destruct (strings.Contains (Error err) "EOF"); [now left|].
  destruct (as_net_Error err) as [e|]; [|now right].
  destruct (Timeout e || Temporary e)%bool; [now left | now right].
Qed.

Lemma categorizeRequestError_retry (err : error) :
  categorizeRequestError err = backoff.Plain err <-> transient err.
Proof.
  unfold categorizeRequestError, transient, mentions_EOF, net_timeout,
    net_temporary.
  rewrite <- Contains_spec.
  destruct (strings.Contains (Error err) "EOF").
  - split; [now left | reflexivity].
  - destruct (as_net_Error err) as [e|].
    + destruct (Timeout e) eqn:Hto; simpl.
      * split; [right; left; eauto | reflexivity].
      * destruct (Temporary e) eqn:Htmp.
        -- split; [right; right; eauto | reflexivity].
        -- split; [discriminate|].
           intros [H | [[e' [He' H]] | [e' [He' H]]]];
             try discriminate; injection He' as <-; congruence.
    + split; [discriminate|].
      intros [H | [[e' [He' H]] | [e' [He' H]]]]; discriminate.
Qed.

(** C4. The error classifier decides Retry (hands the error back as it is)
    exactly when the error text contains "EOF", or the error is a network
    error that timed out, or a network error that is temporary; in every
    other case it decides Permanent (wraps the error). The decision is a
    function of the error alone. *)
Theorem categorizeRequestError_spec (err : error) :
  (categorizeRequestError err = backoff.Plain err <-> transient err) /\
  (categorizeRequestError err = backoff.Permanent err <-> ~ transient err).
Proof.
  split; [apply categorizeRequestError_retry|].
  rewrite <- categorizeRequestError_retry.
  destruct (categorizeRequestError_cases err) as [H | H]; rewrite H.
  - split; [discriminate | intros Hn; now elim Hn].
  - split; [discriminate | reflexivity].
Qed.

(** ** The default conditioner *)

Lemma append_empty (s : string) : (s ++ "")%string = s.
Proof. induction s as [|c s IH]; simpl; [reflexivity | now rewrite IH]. Qed.

Lemma Errorf_bad_status_code (code : Z) :
  fmt_Errorf "bad status code %d" [code] = bad_status_code code.
Proof.
  unfold fmt_Errorf, bad_status_code. f_equal.
  cbn. now rewrite append_empty.
Qed.

Lemma defaultConditioner_5xx (resp : http.Response) :
  500 <= http.StatusCode resp < 600 ->
  defaultConditioner resp = (true, Some (bad_status_code (http.StatusCode resp))).
Proof.
  intros [Hlo Hhi]. unfold defaultConditioner, RetriableErrorf.
  apply Z.leb_le in Hlo. apply Z.ltb_lt in Hhi. rewrite Hlo, Hhi. simpl andb.
  cbv iota. now rewrite Errorf_bad_status_code.
Qed.

Lemma defaultConditioner_2xx (resp : http.Response) :
  200 <= http.StatusCode resp < 300 ->
  defaultConditioner resp = (false, None).
Proof.
  intros [Hlo Hhi]. unfold defaultConditioner, OK.
  assert (H5 : (500 <=? http.StatusCode resp)%Z = false) by (apply Z.leb_gt; lia).
  apply Z.leb_le in Hlo. apply Z.ltb_lt in Hhi. rewrite H5, Hlo, Hhi.
  reflexivity.
Qed.

Lemma defaultConditioner_other (resp : http.Response) :
  ~ 500 <= http.StatusCode resp < 600 ->
  ~ 200 <= http.StatusCode resp < 300 ->
  defaultConditioner resp = (false, Some (bad_status_code (http.StatusCode resp))).
Proof.
  intros H5 H2. unfold defaultConditioner, PermanentErrorf.
  rewrite Errorf_bad_status_code.
  destruct (Z.leb_spec 500 (http.StatusCode resp));
    destruct (Z.ltb_spec (http.StatusCode resp) 600);
    destruct (Z.leb_spec 200 (http.StatusCode resp));
    destruct (Z.ltb_spec (http.StatusCode resp) 300);
    simpl andb; cbv iota; try reflexivity; lia.
Qed.

(** C8. The conditioner installed by NewDefaultBackoffClient5XX decides
    Retry, with the diagnostic "bad status code <code>", exactly when the
    status code is in [500, 600); decides Accept (false, nil) exactly when
    it is in [200, 300); and decides Permanent, with the same diagnostic,
    exactly for every other status code. *)
Theorem defaultConditioner_spec (resp : http.Response) :
  let code := http.StatusCode resp in
  (forall e, defaultConditioner resp = (true, Some e) <->
             500 <= code < 600 /\ e = bad_status_code code) /\
  (defaultConditioner resp = (false, None) <-> 200 <= code < 300) /\
  (forall e, defaultConditioner resp = (false, Some e) <->
             ~ 500 <= code < 600 /\ ~ 200 <= code < 300 /\
             e = bad_status_code code).
Proof.
  cbv zeta.
  assert (Hcases : 500 <= http.StatusCode resp < 600 \/
                   200 <= http.StatusCode resp < 300 \/
                   (~ 500 <= http.StatusCode resp < 600 /\
                    ~ 200 <= http.StatusCode resp < 300)) by lia.
  destruct Hcases as [H | [H | [H5 H2]]].
  - rewrite (defaultConditioner_5xx resp H).
    split; [|split]; [intros e | | intros e];
      (split; [intros Heq | intros Hr]);
      try discriminate; try lia.
    + injection Heq as <-. now split.
    + destruct Hr as [_ ->]. reflexivity.
  - rewrite (defaultConditioner_2xx resp H).
    split; [|split]; [intros e | | intros e];
      (split; [intros Heq | intros Hr]);
      try discriminate; try lia; try reflexivity; try assumption.
  - rewrite (defaultConditioner_other resp H5 H2).
    split; [|split]; [intros e | | intros e];
      (split; [intros Heq | intros Hr]);
      try discriminate; try lia.
    + injection Heq as <-. now repeat split.
    + destruct Hr as [_ [_ ->]]. reflexivity.
Qed.

(** ** The attempt accessor *)

(** C6 (nil response). [Attempts] reads [resp.Request] first, so on a nil
    response it does not return 0: it panics with a nil dereference. *)
Theorem Attempts_nil_panics :
  Attempts None = Panic nil_dereference /\ Attempts None <> Ok 0.
Proof. split; [reflexivity | discriminate]. Qed.

Lemma Key_eqb_eq (k1 k2 : context.Key) :
  context.Key_eqb k1 k2 = true <-> k1 = k2.
Proof.
  destruct k1 as [|n1], k2 as [|n2]; simpl;
    try (split; [reflexivity | reflexivity]);
    try (split; discriminate).
  rewrite String.eqb_eq. split; [now intros -> | now intros [= ->]].
Qed.

Lemma Value_not_carried (c : context.Context) (key : context.Key) :
  ~ context.carries c key -> context.Value c key = context.AnyNil.
Proof.
  induction c as [|[k v] c IH]; intros Hn; simpl; [reflexivity|].
  destruct (context.Key_eqb k key) eqn:Hk.
  - apply Key_eqb_eq in Hk. subst k. elim Hn. exists v. now left.
  - apply IH. intros [v' Hin]. apply Hn. exists v'. now right.
Qed.

(** C10. For a response that is not nil and whose request's context does
    not carry the attempts key, [Attempts] returns 0 and does not panic:
    the type assertion fails and leaves the zero value. *)
Theorem Attempts_without_key (r : http.Response) (rq : http.Request) :
  http.Request_ r = Some rq ->
  ~ context.carries (http.Context rq) context.contextKeyAttempts ->
  Attempts (Some r) = Ok 0.
Proof.
  intros Hrq Hn. unfold Attempts. rewrite Hrq.
  now rewrite (Value_not_carried _ _ Hn).
Qed.

Lemma Attempts_without_key_witness :
  ~ context.carries (http.Context Script.get) context.contextKeyAttempts /\
  Attempts (Some (Script.status 200)) = Ok 0.
Proof.
  assert (H : ~ context.carries (http.Context Script.get) context.contextKeyAttempts)
    by (intros [v []]).
  split; [exact H|].
  exact (Attempts_without_key (Script.status 200) Script.get eq_refl H).
Defined.

(** ** The retry engine *)

Lemma invocations_app (l1 l2 : list Event) :
  invocations (l1 ++ l2) = (invocations l1 + invocations l2)%nat.
Proof. unfold invocations. now rewrite filter_app, length_app. Qed.

Lemma consultations_app (l1 l2 : list Event) :
  consultations (l1 ++ l2) = (consultations l1 + consultations l2)%nat.
Proof. unfold consultations. now rewrite filter_app, length_app. Qed.

Lemma counter_values_app (l1 l2 : list Event) :
  counter_values (l1 ++ l2) = counter_values l1 ++ counter_values l2.
Proof.
  induction l1 as [|e l1 IH]; [reflexivity|].
  destruct e; simpl; now rewrite IH.
Qed.

Lemma invocations_retry_events (ds : list backoff.Duration) (a : Z) :
  invocations (retry_events a ds) = List.length ds.
Proof.
  revert a. induction ds as [|d ds IH]; intros a; [reflexivity|].
  simpl retry_events. unfold invocations in *. simpl. now rewrite IH.
Qed.

Lemma consultations_retry_events (ds : list backoff.Duration) (a : Z) :
  consultations (retry_events a ds) = List.length ds.
Proof.
  revert a. induction ds as [|d ds IH]; intros a; [reflexivity|].
  simpl retry_events. unfold consultations in *. simpl. now rewrite IH.
Qed.

(** Invocations in the log of a call: one per retried round, plus those
    of the last round. *)
Lemma invocations_call (ds : list backoff.Duration) (last : list Event) :
  invocations (EvReset :: retry_events 0 ds ++ last)
  = (List.length ds + invocations last)%nat.
Proof.
  change (EvReset :: retry_events 0 ds ++ last)
    with ([EvReset] ++ retry_events 0 ds ++ last).
  now rewrite !invocations_app, invocations_retry_events.
Qed.

Lemma Attempts_attached (r r' : http.Response) (a : Z) :
  addAttemptsToRequest (Some r) a = Ok r' ->
  attached r r' /\ Attempts (Some r') = Ok a.
Proof.
  unfold addAttemptsToRequest.
  destruct (http.Request_ r) as [rq|] eqn:Hrq; [|discriminate].
  intros [= <-]. split.
  - split; [reflexivity|].
    exists rq. eexists. repeat split; [exact Hrq|].
    intros key Hkey. unfold http.Context at 1. simpl.
    destruct key; [now elim Hkey | reflexivity].
  - reflexivity.
Qed.

Section EngineFacts.

Context {T B : Type} {client_T : http.Client T} {backoff_B : backoff.BackOff B}.
Variable conditioner : http.Response -> cond_result.
Variable req : http.Request.

Abbreviation op := (operation conditioner req).

Lemma outcomes_length (n : nat) (t : T) :
  List.length (outcomes n t req) = n.
Proof.
  revert t. induction n as [|n IH]; intros t; simpl; [reflexivity|].
  destruct (http.Do t req) as [o t']. simpl. now rewrite IH.
Qed.

Lemma delays_length (n : nat) (b : B) : List.length (delays n b) = n.
Proof.
  revert b. induction n as [|n IH]; intros b; simpl; [reflexivity|].
  destruct (backoff.NextBackOff b) as [d b']. simpl. now rewrite IH.
Qed.

Lemma outcomes_snoc (n : nat) (t : T) :
  outcomes (S n) t req =
  outcomes n t req ++ [fst (http.Do (client_after n t req) req)].
Proof.
  revert t. induction n as [|n IH]; intros t.
  - simpl. now destruct (http.Do t req).
  - change (outcomes (S (S n)) t req)
      with (let (o, t') := http.Do t req in o :: outcomes (S n) t' req).
    simpl outcomes at 2. simpl client_after.
    destruct (http.Do t req) as [o t']. simpl snd. now rewrite IH.
Qed.

Lemma delays_snoc (n : nat) (b : B) :
  delays (S n) b =
  delays n b ++ [fst (backoff.NextBackOff (backoffer_after n b))].
Proof.
  revert b. induction n as [|n IH]; intros b.
  - simpl. now destruct (backoff.NextBackOff b).
  - change (delays (S (S n)) b)
      with (let (d, b') := backoff.NextBackOff b in d :: delays (S n) b').
    simpl delays at 2. simpl backoffer_after.
    destruct (backoff.NextBackOff b) as [d b']. simpl snd. now rewrite IH.
Qed.

(** One round of the operation: what it does to the counter, to the
    response variable and to the world does not depend on its verdict. *)
Lemma operation_step (l : Locals) (w : World T B) :
  op l w =
  Returns (verdict conditioner (fst (http.Do (httpClient w) req)),
           {| resp := resp_of (fst (http.Do (httpClient w) req));
              attempts := int_incr (attempts l) |})
          {| httpClient := snd (http.Do (httpClient w) req);
             backoffer := backoffer w;
             log := log w ++ [EvDo (int_incr (attempts l))] |}.
Proof.
  unfold operation, bind, httpClient_Do, emit, ret.
  destruct (http.Do (httpClient w) req) as [[r | r reqErr] t']; simpl.
  - destruct (conditioner r) as [[|] [e|]]; reflexivity.
  - reflexivity.
Qed.

Lemma verdict_retried (o : http.DoResult) :
  retried conditioner o ->
  exists e,
    verdict conditioner o = Some (backoff.Plain e) /\
    as_PermanentError e = None.
Proof.
  destruct o as [r | r reqErr]; simpl.
  - intros [e [He Hw]]. rewrite He. eauto.
  - intros [Hr Hw]. rewrite Hr. eauto.
Qed.

(** As long as attempts are classified Retry and the scheduler grants
    delays, the loop goes round: [n] such rounds leave the loop where it
    began, with the counter [n] higher. *)
Lemma RetryLoop_retried (n : nat) : forall (fuel : nat) (l : Locals) (w : World T B),
  Forall (retried conditioner) (outcomes n (httpClient w) req) ->
  Forall granted (delays n (backoffer w)) ->
  RetryLoop (n + fuel) op l w =
  RetryLoop fuel op
    {| resp := fold_left (fun _ o => resp_of o)
                 (outcomes n (httpClient w) req) (resp l);
       attempts := Nat.iter n int_incr (attempts l) |}
    {| httpClient := client_after n (httpClient w) req;
       backoffer := backoffer_after n (backoffer w);
       log := log w ++ retry_events (attempts l) (delays n (backoffer w)) |}.
Proof.
  induction n as [|n IH]; intros fuel l w Hout Hdel.
  - destruct l, w. simpl. now rewrite app_nil_r.
  - simpl outcomes in *. simpl delays in *. simpl client_after.
    simpl backoffer_after.
    destruct (verdict_retried (fst (http.Do (httpClient w) req)))
      as [e [He Hw]].
    { destruct (http.Do (httpClient w) req). now inversion Hout. }
    change (S n + fuel)%nat with (S (n + fuel)). cbn [RetryLoop].
    unfold bind at 1. rewrite operation_step, He.
    unfold backoff.as_permanent. cbn [backoff.value]. rewrite Hw.
    unfold bind at 1, backoffer_NextBackOff, emit. cbn [backoffer log httpClient].
    destruct (http.Do (httpClient w) req) as [o t'].
    destruct (backoff.NextBackOff (backoffer w)) as [d b'].
    inversion Hout as [|? ? Ho Hout']; subst.
    inversion Hdel as [|? ? Hd Hdel']; subst.
    destruct (Z.eqb_spec d backoff.Stop) as [Heq | _]; [now elim Hd|].
    unfold bind at 1, sleep, emit. cbn [backoffer log httpClient fst snd].
    rewrite IH by assumption. cbn [backoffer log httpClient resp attempts].
    rewrite Nat.iter_succ_r. simpl fold_left. simpl retry_events.
    now rewrite <- !app_assoc.
Qed.

(** The last round of a call, in its three forms. *)
Lemma RetryLoop_nil (fuel : nat) (l : Locals) (w : World T B) :
  verdict conditioner (fst (http.Do (httpClient w) req)) = None ->
  RetryLoop (S fuel) op l w =
  Returns (None,
           {| resp := resp_of (fst (http.Do (httpClient w) req));
              attempts := int_incr (attempts l) |})
          {| httpClient := snd (http.Do (httpClient w) req);
             backoffer := backoffer w;
             log := log w ++ [EvDo (int_incr (attempts l))] |}.
Proof.
  intros Hv. cbn [RetryLoop]. unfold bind. now rewrite operation_step, Hv.
Qed.

Lemma RetryLoop_permanent (fuel : nat) (l : Locals) (w : World T B) (e : error) :
  verdict conditioner (fst (http.Do (httpClient w) req))
    = Some (backoff.Permanent e) ->
  RetryLoop (S fuel) op l w =
  Returns (Some e,
           {| resp := resp_of (fst (http.Do (httpClient w) req));
              attempts := int_incr (attempts l) |})
          {| httpClient := snd (http.Do (httpClient w) req);
             backoffer := backoffer w;
             log := log w ++ [EvDo (int_incr (attempts l))] |}.
Proof.
  intros Hv. cbn [RetryLoop]. unfold bind. now rewrite operation_step, Hv.
Qed.

Lemma RetryLoop_exhausted (fuel : nat) (l : Locals) (w : World T B) (e : error) :
  verdict conditioner (fst (http.Do (httpClient w) req))
    = Some (backoff.Plain e) ->
  as_PermanentError e = None ->
  fst (backoff.NextBackOff (backoffer w)) = backoff.Stop ->
  RetryLoop (S fuel) op l w =
  Returns (Some e,
           {| resp := resp_of (fst (http.Do (httpClient w) req));
              attempts := int_incr (attempts l) |})
          {| httpClient := snd (http.Do (httpClient w) req);
             backoffer := snd (backoff.NextBackOff (backoffer w));
             log := log w ++ [EvDo (int_incr (attempts l));
                              EvNextBackOff backoff.Stop] |}.
Proof.
  intros Hv Hw Hstop. cbn [RetryLoop]. unfold bind at 1.
  rewrite operation_step, Hv.
  unfold backoff.as_permanent. cbn [backoff.value]. rewrite Hw.
  unfold bind, backoffer_NextBackOff, emit, ret. cbn [backoffer log httpClient].
  destruct (backoff.NextBackOff (backoffer w)) as [d b']. simpl in Hstop.
  subst d. simpl. now rewrite <- app_assoc.
Qed.

Lemma retrying_retried (n fuel : nat) (w : World T B) :
  Forall (retried conditioner) (outcomes n (httpClient w) req) ->
  Forall granted (delays n (backoff.Reset (backoffer w))) ->
  retrying conditioner (n + fuel) req w =
  RetryLoop fuel op (locals_at req n w) (world_at req n w).
Proof.
  intros Hout Hdel. unfold retrying, Retry, bind at 1, backoffer_Reset, emit.
  rewrite RetryLoop_retried by assumption.
  unfold locals_at, world_at. cbn [backoffer log httpClient resp attempts locals0].
  now rewrite <- app_assoc.
Qed.

(** Splitting a sequence of outcomes into the retried rounds and the last. *)
Lemma outcomes_last (pre : list http.DoResult) (o : http.DoResult) (t : T) :
  outcomes (S (List.length pre)) t req = pre ++ [o] ->
  outcomes (List.length pre) t req = pre /\
  fst (http.Do (client_after (List.length pre) t req) req) = o.
Proof.
  rewrite outcomes_snoc. intros H. now apply app_inj_tail in H.
Qed.

Lemma delays_last (ds : list backoff.Duration) (d : backoff.Duration) (b : B) :
  delays (S (List.length ds)) b = ds ++ [d] ->
  delays (List.length ds) b = ds /\
  fst (backoff.NextBackOff (backoffer_after (List.length ds) b)) = d.
Proof.
  rewrite delays_snoc. intros H. now apply app_inj_tail in H.
Qed.

Lemma attempts_at (n : nat) (w : World T B) :
  Z.of_nat (S n) <= MaxInt ->
  int_incr (attempts (locals_at req n w)) = Z.of_nat (S n).
Proof.
  intros Hn. unfold locals_at. cbn [attempts].
  change (int_incr (Nat.iter n int_incr 0)) with (Nat.iter (S n) int_incr 0).
  rewrite iter_incr_small; unfold MinInt, MaxInt, intSize in *; lia.
Qed.

End EngineFacts.

Section Calls.

Context {T B : Type} {client_T : http.Client T} {backoff_B : backoff.BackOff B}.
Variable conditioner : http.Response -> cond_result.
Variable req : http.Request.

Lemma Do_after_retrying (fuel : nat) (w w' : World T B) (err : option error)
    (r : http.Response) (a : Z) :
  retrying conditioner fuel req w =
    Returns (err, {| resp := Some r; attempts := a |}) w' ->
  forall rq, http.Request_ r = Some rq ->
  exists r',
    NewBackoffClient_Do conditioner fuel req w = Returns (Some r', err) w' /\
    attached r r' /\ Attempts (Some r') = Ok a.
Proof.
  intros Hretry rq Hrq. unfold NewBackoffClient_Do, bind. rewrite Hretry.
  cbn [resp attempts].
  destruct (addAttemptsToRequest (Some r) a) as [r'|msg] eqn:Hadd.
  - exists r'. split; [reflexivity|]. now apply Attempts_attached.
  - unfold addAttemptsToRequest in Hadd. rewrite Hrq in Hadd. discriminate.
Qed.

Lemma Do_after_retrying_nil (fuel : nat) (w w' : World T B)
    (err : option error) (a : Z) :
  retrying conditioner fuel req w =
    Returns (err, {| resp := None; attempts := a |}) w' ->
  NewBackoffClient_Do conditioner fuel req w = Panics nil_dereference w'.
Proof.
  intros Hretry. unfold NewBackoffClient_Do, bind. now rewrite Hretry.
Qed.

(** C1, as amended. Let the transport outcomes of a call be [pre] followed
    by a response [r] that has its [Request] and that the conditioner
    accepts with (false, nil), where each outcome of [pre] was classified
    Retry and the scheduler granted a delay after each. Then the call
    returns, its error is nil, its response is [r] with the count attached,
    and the count read back by [Attempts] equals the number of transport
    invocations made, [length pre + 1]. *)
Theorem accept_ends_call (pre : list http.DoResult) (r : http.Response)
    (rq : http.Request) (w : World T B) (fuel : nat) :
  outcomes (S (List.length pre)) (httpClient w) req = pre ++ [http.DoOk r] ->
  Forall (retried conditioner) pre ->
  Forall granted (delays (List.length pre) (backoff.Reset (backoffer w))) ->
  conditioner r = (false, None) ->
  http.Request_ r = Some rq ->
  Z.of_nat (S (List.length pre)) <= MaxInt ->
  (List.length pre < fuel)%nat ->
  exists r' w' evs,
    NewBackoffClient_Do conditioner fuel req w = Returns (Some r', None) w' /\
    attached r r' /\
    Attempts (Some r') = Ok (Z.of_nat (S (List.length pre))) /\
    log w' = log w ++ evs /\
    invocations evs = S (List.length pre).
Proof.
  intros Hout Hpre Hdel Hacc Hrq Hmax Hfuel.
  apply outcomes_last in Hout. destruct Hout as [Hout Hlast].
  set (n := List.length pre) in *.
  replace fuel with (n + S (fuel - S n))%nat by lia.
  assert (Hretry : retrying conditioner (n + S (fuel - S n)) req w =
    Returns (None, {| resp := Some r; attempts := Z.of_nat (S n) |})
      {| httpClient := snd (http.Do (httpClient (world_at req n w)) req);
         backoffer := backoffer (world_at req n w);
         log := log (world_at req n w) ++ [EvDo (Z.of_nat (S n))] |}).
  { rewrite retrying_retried by (rewrite ?Hout; assumption).
    rewrite RetryLoop_nil.
    - rewrite attempts_at by assumption.
      cbn [world_at httpClient]. now rewrite Hlast.
    - cbn [world_at httpClient]. rewrite Hlast. simpl. now rewrite Hacc. }
  destruct (Do_after_retrying _ _ _ _ _ _ Hretry rq Hrq) as [r' [HDo [Hatt HA]]].
  exists r'. eexists. eexists. split; [exact HDo|].
  split; [exact Hatt|]. split; [exact HA|].
  cbn [log world_at]. rewrite <- app_assoc. split; [reflexivity|].
  cbn [app]. rewrite invocations_call, delays_length.
  unfold invocations. simpl. lia.
Qed.

(** C2, as amended. Let every attempt of a call yield a response that the
    conditioner classifies Retry (true, non-nil) with an error that is not
    a [*backoff.PermanentError], let the last of these responses have its
    [Request] set, and let the scheduler grant [N] delays and then signal
    exhaustion. Then the call makes exactly [N + 1] transport invocations,
    the count read back is [N + 1], the error is the diagnostic of the last
    classification, and the last response comes back with it. *)
Theorem retries_exhausted (rs : list http.Response) (r : http.Response)
    (e : error) (rq : http.Request) (ds : list backoff.Duration)
    (w : World T B) (fuel : nat) :
  outcomes (S (List.length ds)) (httpClient w) req
    = map http.DoOk rs ++ [http.DoOk r] ->
  Forall (fun x => exists e', conditioner x = (true, Some e') /\
                              as_PermanentError e' = None) rs ->
  conditioner r = (true, Some e) ->
  as_PermanentError e = None ->
  delays (S (List.length ds)) (backoff.Reset (backoffer w))
    = ds ++ [backoff.Stop] ->
  Forall granted ds ->
  http.Request_ r = Some rq ->
  Z.of_nat (S (List.length ds)) <= MaxInt ->
  (List.length ds < fuel)%nat ->
  exists r' w' evs,
    NewBackoffClient_Do conditioner fuel req w = Returns (Some r', Some e) w' /\
    attached r r' /\
    Attempts (Some r') = Ok (Z.of_nat (S (List.length ds))) /\
    log w' = log w ++ evs /\
    invocations evs = S (List.length ds).
Proof.
  intros Hout Hrs Hr Hw Hdel Hds Hrq Hmax Hfuel.
  assert (Hlen : List.length (map http.DoOk rs) = List.length ds).
  { apply (f_equal (@List.length _)) in Hout.
    rewrite outcomes_length, length_app in Hout. simpl in Hout. lia. }
  rewrite <- Hlen in Hout. apply outcomes_last in Hout. rewrite Hlen in Hout.
  destruct Hout as [Hout Hlast].
  apply delays_last in Hdel. destruct Hdel as [Hdel Hstop].
  set (n := List.length ds) in *.
  replace fuel with (n + S (fuel - S n))%nat by lia.
  assert (Hretry : retrying conditioner (n + S (fuel - S n)) req w =
    Returns (Some e, {| resp := Some r; attempts := Z.of_nat (S n) |})
      {| httpClient := snd (http.Do (httpClient (world_at req n w)) req);
         backoffer :=
           snd (backoff.NextBackOff (backoffer (world_at req n w)));
         log := log (world_at req n w)
                  ++ [EvDo (Z.of_nat (S n)); EvNextBackOff backoff.Stop] |}).
  { rewrite retrying_retried.
    - rewrite (RetryLoop_exhausted _ _ _ _ _ e).
      + rewrite attempts_at by assumption.
        cbn [world_at httpClient]. now rewrite Hlast.
      + cbn [world_at httpClient]. rewrite Hlast. simpl. now rewrite Hr.
      + exact Hw.
      + exact Hstop.
    - rewrite Hout. apply Forall_map. exact Hrs.
    - now rewrite Hdel. }
  destruct (Do_after_retrying _ _ _ _ _ _ Hretry rq Hrq) as [r' [HDo [Hatt HA]]].
  exists r'. eexists. eexists. split; [exact HDo|].
  split; [exact Hatt|]. split; [exact HA|].
  cbn [log world_at]. rewrite <- app_assoc. split; [reflexivity|].
  cbn [app]. rewrite invocations_call, delays_length.
  unfold invocations. simpl. lia.
Qed.

Lemma one_attempt_fits : Z.of_nat 1 <= MaxInt.
Proof. unfold MaxInt, intSize. simpl. lia. Qed.

(** C3, as amended. When the first attempt of a call yields a response
    that has its [Request] and that the conditioner classifies Permanent
    (false, non-nil), the call ends after that one transport invocation:
    the count is 1, the scheduler is not asked for a delay, the error is
    the conditioner's diagnostic, and the response comes back with it. *)
Theorem permanent_response_ends_call (r : http.Response) (e : error)
    (rq : http.Request) (w : World T B) (fuel : nat) :
  fst (http.Do (httpClient w) req) = http.DoOk r ->
  conditioner r = (false, Some e) ->
  http.Request_ r = Some rq ->
  (0 < fuel)%nat ->
  exists r' w' evs,
    NewBackoffClient_Do conditioner fuel req w = Returns (Some r', Some e) w' /\
    attached r r' /\
    Attempts (Some r') = Ok 1 /\
    log w' = log w ++ evs /\
    invocations evs = 1%nat /\
    consultations evs = 0%nat.
Proof.
  intros Hfirst Hperm Hrq Hfuel.
  replace fuel with (0 + S (fuel - 1))%nat by lia.
  assert (Hretry : retrying conditioner (0 + S (fuel - 1)) req w =
    Returns (Some e, {| resp := Some r; attempts := 1 |})
      {| httpClient := snd (http.Do (httpClient (world_at req 0 w)) req);
         backoffer := backoffer (world_at req 0 w);
         log := log (world_at req 0 w) ++ [EvDo 1] |}).
  { rewrite retrying_retried by constructor.
    rewrite (RetryLoop_permanent _ _ _ _ _ e).
    - rewrite (attempts_at req 0 w one_attempt_fits).
      cbn [world_at httpClient client_after]. now rewrite Hfirst.
    - cbn [world_at httpClient client_after]. rewrite Hfirst. simpl.
      now rewrite Hperm. }
  destruct (Do_after_retrying _ _ _ _ _ _ Hretry rq Hrq) as [r' [HDo [Hatt HA]]].
  exists r'. eexists. eexists. split; [exact HDo|].
  split; [exact Hatt|]. split; [exact HA|].
  cbn [log world_at]. rewrite <- app_assoc. split; [reflexivity|].
  split; reflexivity.
Qed.

(** A transport error that the error classifier wraps ends the loop at
    once: one invocation and no question to the scheduler. *)
Lemma permanent_transport_error_ends_retrying (resp1 : option http.Response)
    (err : error) (w : World T B) (fuel : nat) :
  fst (http.Do (httpClient w) req) = http.DoErr resp1 err ->
  categorizeRequestError err = backoff.Permanent err ->
  retrying conditioner (S fuel) req w =
  Returns (Some err, {| resp := resp1; attempts := 1 |})
    {| httpClient := snd (http.Do (httpClient w) req);
       backoffer := backoff.Reset (backoffer w);
       log := log w ++ [EvReset; EvDo 1] |}.
Proof.
  intros Hfirst Hperm.
  change (S fuel) with (0 + S fuel)%nat.
  rewrite retrying_retried by constructor.
  rewrite (RetryLoop_permanent _ _ _ _ _ err).
  - rewrite (attempts_at req 0 w one_attempt_fits).
    cbn [world_at httpClient client_after backoffer backoffer_after log].
    rewrite Hfirst. cbn [resp_of delays retry_events].
    now rewrite <- app_assoc.
  - cbn [world_at httpClient client_after]. rewrite Hfirst. simpl.
    now rewrite Hperm.
Qed.

(** With no response in hand the call then panics instead of returning
    the error. *)
Lemma permanent_transport_error_nil_panics (err : error) (w : World T B)
    (fuel : nat) :
  fst (http.Do (httpClient w) req) = http.DoErr None err ->
  categorizeRequestError err = backoff.Permanent err ->
  NewBackoffClient_Do conditioner (S fuel) req w =
  Panics nil_dereference
    {| httpClient := snd (http.Do (httpClient w) req);
       backoffer := backoff.Reset (backoffer w);
       log := log w ++ [EvReset; EvDo 1] |}.
Proof.
  intros Hfirst Hperm. eapply Do_after_retrying_nil.
  exact (permanent_transport_error_ends_retrying None err w fuel Hfirst Hperm).
Qed.

(** When every attempt fails without a response and the scheduler stops
    after [length ds] delays, the loop hands back the last transport error
    and the call panics on the nil response. *)
Lemma all_attempts_fail_panics (errs : list error) (err : error)
    (ds : list backoff.Duration) (w : World T B) (fuel : nat) :
  outcomes (S (List.length ds)) (httpClient w) req
    = map (http.DoErr None) errs ++ [http.DoErr None err] ->
  Forall (fun x => categorizeRequestError x = backoff.Plain x /\
                   as_PermanentError x = None) errs ->
  categorizeRequestError err = backoff.Plain err ->
  as_PermanentError err = None ->
  delays (S (List.length ds)) (backoff.Reset (backoffer w))
    = ds ++ [backoff.Stop] ->
  Forall granted ds ->
  (List.length ds < fuel)%nat ->
  exists w',
    NewBackoffClient_Do conditioner fuel req w = Panics nil_dereference w' /\
    invocations (log w') = (invocations (log w) + S (List.length ds))%nat.
Proof.
  intros Hout Herrs Herr Hw Hdel Hds Hfuel.
  assert (Hlen : List.length (map (http.DoErr None) errs) = List.length ds).
  { apply (f_equal (@List.length _)) in Hout.
    rewrite outcomes_length, length_app in Hout. simpl in Hout. lia. }
  rewrite <- Hlen in Hout. apply outcomes_last in Hout. rewrite Hlen in Hout.
  destruct Hout as [Hout Hlast].
  apply delays_last in Hdel. destruct Hdel as [Hdel Hstop].
  set (n := List.length ds) in *.
  replace fuel with (n + S (fuel - S n))%nat by lia.
  eexists. split.
  - eapply Do_after_retrying_nil. rewrite retrying_retried.
    + rewrite (RetryLoop_exhausted _ _ _ _ _ err).
      * cbn [world_at httpClient]. rewrite Hlast. reflexivity.
      * cbn [world_at httpClient]. rewrite Hlast. simpl. now rewrite Herr.
      * exact Hw.
      * exact Hstop.
    + rewrite Hout. apply Forall_map. exact Herrs.
    + now rewrite Hdel.
  - cbn [log world_at]. rewrite <- app_assoc, invocations_app. cbn [app].
    rewrite invocations_call, delays_length.
    unfold invocations. simpl. lia.
Qed.

(** The counter along a run of the loop: at the [k]-th invocation it has
    been incremented [k] times, and that is its value when the loop ends. *)
Lemma RetryLoop_counter (fuel : nat) :
  forall (l l' : Locals) (w w' : World T B) (err : option error),
  RetryLoop fuel (operation conditioner req) l w = Returns (err, l') w' ->
  exists evs,
    log w' = log w ++ evs /\
    (1 <= invocations evs)%nat /\
    counter_values evs
      = map (fun k => Nat.iter k int_incr (attempts l))
            (seq 1 (invocations evs)) /\
    attempts l' = Nat.iter (invocations evs) int_incr (attempts l).
Proof.
  induction fuel as [|fuel IH]; intros l l' w w' err Hrun; [discriminate|].
  cbn [RetryLoop] in Hrun. unfold bind at 1 in Hrun.
  rewrite operation_step in Hrun.
  destruct (verdict conditioner (fst (http.Do (httpClient w) req)))
    as [oe|]; [destruct (backoff.as_permanent oe) as [e|]|].
  - injection Hrun as <- <- <-. cbn [log attempts].
    exists [EvDo (int_incr (attempts l))]. repeat split; auto.
  - unfold bind at 1, backoffer_NextBackOff, emit in Hrun.
    cbn [backoffer log httpClient] in Hrun.
    destruct (backoff.NextBackOff (backoffer w)) as [d b'].
    destruct (d =? backoff.Stop)%Z.
    + injection Hrun as <- <- <-. cbn [log attempts].
      exists [EvDo (int_incr (attempts l)); EvNextBackOff d].
      rewrite <- app_assoc. repeat split; auto.
    + unfold bind at 1, sleep, emit in Hrun.
      cbn [backoffer log httpClient] in Hrun.
      apply IH in Hrun. destruct Hrun as [evs [Hlog [Hone [Hvals Hfin]]]].
      cbn [log attempts] in *.
      exists (EvDo (int_incr (attempts l)) :: EvNextBackOff d :: EvSleep d :: evs).
      rewrite Hlog, <- !app_assoc.
      change (invocations (EvDo (int_incr (attempts l)) :: EvNextBackOff d
                :: EvSleep d :: evs)) with (S (invocations evs)).
      repeat split.
      * lia.
      * cbn [counter_values]. rewrite Hvals.
        change (seq 1 (S (invocations evs)))
          with (1%nat :: seq 2 (invocations evs)).
        cbn [map]. f_equal.
        rewrite <- (seq_shift (invocations evs) 1), map_map.
        apply map_ext. intros k. now rewrite Nat.iter_succ_r.
      * rewrite Hfin. now rewrite Nat.iter_succ_r.
  - injection Hrun as <- <- <-. cbn [log attempts].
    exists [EvDo (int_incr (attempts l))]. repeat split; auto.
Qed.

(** C9. Within one call the counter starts at 0 and is incremented once
    per transport invocation: at the [k]-th invocation it holds [k], so its
    values increase strictly; and whenever the retry loop of the call ends,
    with or without an error, at least one invocation has been made and the
    counter equals the number of invocations. ([int] holds counts up to
    [MaxInt].) *)
Theorem attempts_counter (fuel : nat) (w w' : World T B) (l : Locals)
    (err : option error) :
  retrying conditioner fuel req w = Returns (err, l) w' ->
  exists evs,
    log w' = log w ++ evs /\
    (1 <= invocations evs)%nat /\
    (Z.of_nat (invocations evs) <= MaxInt ->
     counter_values evs = map Z.of_nat (seq 1 (invocations evs)) /\
     attempts l = Z.of_nat (invocations evs)).
Proof.
  unfold retrying, Retry, bind at 1, backoffer_Reset, emit. intros Hrun.
  apply RetryLoop_counter in Hrun.
  destruct Hrun as [evs [Hlog [Hone [Hvals Hfin]]]].
  cbn [log attempts locals0] in *.
  exists (EvReset :: evs). rewrite Hlog, <- app_assoc.
  change (invocations (EvReset :: evs)) with (invocations evs).
  change (counter_values (EvReset :: evs)) with (counter_values evs).
  repeat split; auto.
  - rewrite Hvals. apply map_ext_in. intros k Hk. apply in_seq in Hk.
    rewrite iter_incr_small; unfold MinInt, MaxInt, intSize in *; lia.
  - rewrite Hfin.
    rewrite iter_incr_small; unfold MinInt, MaxInt, intSize in *; lia.
Qed.

End Calls.

(** ** Runs on scripted collaborators *)

Import Script.

(** The repository's first test: 500, then 200. *)
Lemma accept_ends_call_witness :
  exists r' w' evs,
    NewBackoffClient_Do defaultConditioner 5 get
      (world [http.DoOk (status 500); http.DoOk (status 200)] [500; 750])
      = Returns (Some r', None) w' /\
    attached (status 200) r' /\
    Attempts (Some r') = Ok 2 /\
    log w' = [] ++ evs /\
    invocations evs = 2%nat.
Proof.
  apply (accept_ends_call defaultConditioner get
           [http.DoOk (status 500)] (status 200) get
           (world [http.DoOk (status 500); http.DoOk (status 200)] [500; 750])
           5).
  - reflexivity.
  - constructor; [|constructor]. eexists. split; reflexivity.
  - constructor; [|constructor]. discriminate.
  - reflexivity.
  - reflexivity.
  - discriminate.
  - simpl. lia.
Defined.

(** A server that keeps answering 503 while the policy grants two delays. *)
Lemma retries_exhausted_witness :
  exists r' w' evs,
    NewBackoffClient_Do defaultConditioner 5 get
      (world [http.DoOk (status 500); http.DoOk (status 502);
              http.DoOk (status 503)] [500; 750])
      = Returns (Some r', Some (bad_status_code 503)) w' /\
    attached (status 503) r' /\
    Attempts (Some r') = Ok 3 /\
    log w' = [] ++ evs /\
    invocations evs = 3%nat.
Proof.
  apply (retries_exhausted defaultConditioner get
           [status 500; status 502] (status 503) (bad_status_code 503) get
           [500; 750]
           (world [http.DoOk (status 500); http.DoOk (status 502);
                   http.DoOk (status 503)] [500; 750])
           5).
  - reflexivity.
  - constructor; [|constructor; [|constructor]];
      eexists; split; reflexivity.
  - reflexivity.
  - reflexivity.
  - reflexivity.
  - repeat constructor; discriminate.
  - reflexivity.
  - discriminate.
  - simpl. lia.
Defined.

(** The repository's third test: 404 under a conditioner that rejects it. *)
Lemma permanent_response_ends_call_witness :
  exists r' w' evs,
    NewBackoffClient_Do defaultConditioner 5 get
      (world [http.DoOk (status 404)] [500; 750])
      = Returns (Some r', Some (bad_status_code 404)) w' /\
    attached (status 404) r' /\
    Attempts (Some r') = Ok 1 /\
    log w' = [] ++ evs /\
    invocations evs = 1%nat /\
    consultations evs = 0%nat.
Proof.
  apply (permanent_response_ends_call defaultConditioner get
           (status 404) (bad_status_code 404) get
           (world [http.DoOk (status 404)] [500; 750]) 5).
  - reflexivity.
  - reflexivity.
  - reflexivity.
  - lia.
Defined.

(** C1 as stated, for every sequence that ends with Accept, fails on an
    accepted response that has no [Request]: the call panics in
    [addAttemptsToRequest] instead of returning. *)
Lemma accept_ends_call_counterexample :
  outcomes 1 [http.DoOk (bare 200)] get = [] ++ [http.DoOk (bare 200)] /\
  defaultConditioner (bare 200) = (false, None) /\
  forall fuel,
    NewBackoffClient_Do defaultConditioner (S fuel) get
      (world [http.DoOk (bare 200)] [500])
    = Panics nil_dereference
        {| httpClient := [];
           backoffer := {| plan := [500]; remaining := [500] |};
           log := [EvReset; EvDo 1] |}.
Proof. repeat split. Qed.

(** C2 as stated fails in two ways. A conditioner that asks for a retry
    with an error made by [backoff.Permanent] gets none: with two delays on
    offer the call ends after one invocation and returns the inner error,
    not the diagnostic. And when the last response has no [Request], the
    call panics instead of returning it with the diagnostic. *)
Lemma retries_exhausted_counterexample :
  (retry_permanent "bad" (status 500)
   = (true, Some (mk_PermanentError (errors_New "bad"))) /\
   delays 3 (backoff.Reset (new_Plan [500; 750])) = [500; 750; backoff.Stop] /\
   forall fuel,
     NewBackoffClient_Do (retry_permanent "bad") (S fuel) get
       (world [http.DoOk (status 500); http.DoOk (status 500);
               http.DoOk (status 500)] [500; 750])
     = Returns
         (Some {| http.StatusCode := 500;
                  http.Request_ :=
                    Some (http.WithContext get
                            [(context.contextKeyAttempts,
                              context.AnyInt 1)]) |},
          Some (errors_New "bad"))
         {| httpClient := [http.DoOk (status 500); http.DoOk (status 500)];
            backoffer := {| plan := [500; 750]; remaining := [500; 750] |};
            log := [EvReset; EvDo 1] |}) /\
  (defaultConditioner (status 500) = (true, Some (bad_status_code 500)) /\
   defaultConditioner (bare 503) = (true, Some (bad_status_code 503)) /\
   delays 2 (backoff.Reset (new_Plan [500])) = [500; backoff.Stop] /\
   forall fuel,
     NewBackoffClient_Do defaultConditioner (S (S fuel)) get
       (world [http.DoOk (status 500); http.DoOk (bare 503)] [500])
     = Panics nil_dereference
         {| httpClient := [];
            backoffer := {| plan := [500]; remaining := [] |};
            log := [EvReset; EvDo 1; EvNextBackOff 500; EvSleep 500; EvDo 2;
                    EvNextBackOff backoff.Stop] |}).
Proof. repeat split. Qed.

(** C3 as stated, for every execution, fails on a first response that is
    classified Permanent and has no [Request]: the call panics instead of
    returning the response and the diagnostic. *)
Lemma permanent_response_ends_call_counterexample :
  fst (http.Do [http.DoOk (bare 404)] get) = http.DoOk (bare 404) /\
  defaultConditioner (bare 404) = (false, Some (bad_status_code 404)) /\
  forall fuel,
    NewBackoffClient_Do defaultConditioner (S fuel) get
      (world [http.DoOk (bare 404)] [500])
    = Panics nil_dereference
        {| httpClient := [];
           backoffer := {| plan := [500]; remaining := [500] |};
           log := [EvReset; EvDo 1] |}.
Proof. repeat split. Qed.

Lemma attempts_counter_witness :
  exists evs,
    [EvReset; EvDo 1; EvNextBackOff 500; EvSleep 500; EvDo 2] = [] ++ evs /\
    (1 <= invocations evs)%nat /\
    (Z.of_nat (invocations evs) <= MaxInt ->
     counter_values evs = map Z.of_nat (seq 1 (invocations evs)) /\
     2 = Z.of_nat (invocations evs)).
Proof.
  apply (attempts_counter defaultConditioner get 5
           (world [http.DoErr None timeout; http.DoOk (status 200)] [500; 750])
           {| httpClient := [];
              backoffer := {| plan := [500; 750]; remaining := [750] |};
              log := [EvReset; EvDo 1; EvNextBackOff 500; EvSleep 500; EvDo 2] |}
           {| resp := Some (status 200); attempts := 2 |}
           None).
  reflexivity.
Defined.

(** C5 (no response at all). Both attempts time out, the policy grants one
    delay and then stops: the loop ends with the last transport error, but
    the call does not return it with a nil response. It panics, because
    [addAttemptsToRequest] dereferences the nil response. *)
Theorem all_attempts_fail_call_panics :
  categorizeRequestError timeout = backoff.Plain timeout /\
  retrying defaultConditioner 5 get
    (world [http.DoErr None timeout; http.DoErr None timeout] [500])
  = Returns (Some timeout, {| resp := None; attempts := 2 |})
      {| httpClient := [];
         backoffer := {| plan := [500]; remaining := [] |};
         log := [EvReset; EvDo 1; EvNextBackOff 500; EvSleep 500; EvDo 2;
                 EvNextBackOff backoff.Stop] |} /\
  NewBackoffClient_Do defaultConditioner 5 get
    (world [http.DoErr None timeout; http.DoErr None timeout] [500])
  = Panics nil_dereference
      {| httpClient := [];
         backoffer := {| plan := [500]; remaining := [] |};
         log := [EvReset; EvDo 1; EvNextBackOff 500; EvSleep 500; EvDo 2;
                 EvNextBackOff backoff.Stop] |}.
Proof. repeat split. Qed.

(** C7 (permanent transport error). The error is classified Permanent and
    the loop ends after one invocation without asking the policy, with that
    error; but the transport gave no response, and the call panics in
    [addAttemptsToRequest] instead of returning the error. *)
Theorem permanent_transport_error_call_panics :
  categorizeRequestError unsupported_scheme
    = backoff.Permanent unsupported_scheme /\
  retrying defaultConditioner 5 get
    (world [http.DoErr None unsupported_scheme; http.DoOk (status 200)] [500])
  = Returns (Some unsupported_scheme, {| resp := None; attempts := 1 |})
      {| httpClient := [http.DoOk (status 200)];
         backoffer := {| plan := [500]; remaining := [500] |};
         log := [EvReset; EvDo 1] |} /\
  NewBackoffClient_Do defaultConditioner 5 get
    (world [http.DoErr None unsupported_scheme; http.DoOk (status 200)] [500])
  = Panics nil_dereference
      {| httpClient := [http.DoOk (status 200)];
         backoffer := {| plan := [500]; remaining := [500] |};
         log := [EvReset; EvDo 1] |}.
Proof. repeat split. Qed.

(** * Further properties of the code *)

(** ** Attaching and reading the count *)

(** X1. Reading back what was attached: for every response that has its
    request, [addAttemptsToRequest] succeeds and [Attempts] then returns the
    very count that was attached, whatever the request's context held
    before (an older count is shadowed). *)
Theorem Attempts_reads_attached (r : http.Response) (rq : http.Request)
    (a : Z) :
  http.Request_ r = Some rq ->
  exists r',
    addAttemptsToRequest (Some r) a = Ok r' /\ Attempts (Some r') = Ok a.
Proof.
  intros Hrq. unfold addAttemptsToRequest. rewrite Hrq.
  eexists. split; reflexivity.
Qed.

Lemma Attempts_reads_attached_witness :
  exists r',
    addAttemptsToRequest
      (Some {| http.StatusCode := 200;
               http.Request_ :=
                 Some {| http.Method := "GET"; http.URL := "http://127.0.0.1/";
                         http.ctx :=
                           Some [(context.contextKeyAttempts,
                                  context.AnyInt 7)] |} |}) 2
    = Ok r' /\ Attempts (Some r') = Ok 2.
Proof.
  apply (Attempts_reads_attached _
           {| http.Method := "GET"; http.URL := "http://127.0.0.1/";
              http.ctx :=
                Some [(context.contextKeyAttempts, context.AnyInt 7)] |}).
  reflexivity.
Defined.

(** X2. Attaching the count changes nothing else: the status code, the
    request's method and URL, and the value of every other context key are
    those of the response before. *)
Theorem addAttemptsToRequest_frame (r r' : http.Response) (a : Z) :
  addAttemptsToRequest (Some r) a = Ok r' -> attached r r'.
Proof.
  unfold addAttemptsToRequest.
  destruct (http.Request_ r) as [rq|] eqn:Hrq; [|discriminate].
  intros [= <-]. split; [reflexivity|].
  exists rq. eexists. repeat split; [exact Hrq|].
  intros key Hkey. unfold http.Context at 1. simpl.
  destruct key as [|name]; [now elim Hkey | reflexivity].
Qed.

Lemma addAttemptsToRequest_frame_witness :
  attached (Script.status 200)
    {| http.StatusCode := 200;
       http.Request_ :=
         Some (http.WithContext Script.get
                 [(context.contextKeyAttempts, context.AnyInt 3)]) |}.
Proof.
  apply (addAttemptsToRequest_frame (Script.status 200) _ 3). reflexivity.
Defined.

(** X3. [Attempts] and [addAttemptsToRequest] panic on the same inputs,
    namely a nil response and a response whose [Request] is nil, and on no
    other. *)
Theorem Attempts_panics_iff (resp : option http.Response) (a : Z) :
  ((exists msg, Attempts resp = Panic msg) <->
   resp = None \/ exists r, resp = Some r /\ http.Request_ r = None) /\
  ((exists msg, addAttemptsToRequest resp a = Panic msg) <->
   exists msg, Attempts resp = Panic msg).
Proof.
  unfold Attempts, addAttemptsToRequest.
  destruct resp as [r|].
  - destruct (http.Request_ r) as [rq|] eqn:Hrq.
    + destruct (context.assert_int _) as [n ok]. split; split.
      * intros [msg H]. discriminate.
      * intros [H | [r0 [[= <-] H]]]; [discriminate | congruence].
      * intros [msg H]. discriminate.
      * intros [msg H]. discriminate.
    + split; split; eauto.
  - split; split; eauto.
Qed.

(** ** The two revisions of the error classifier *)

(** X4. The earlier revision of [categorizeRequestError], which tests
    [Timeout()] and [Temporary()] in an if / else-if chain, decides every
    error as the current one does with its combined [case]. *)
Theorem categorizeRequestError_revisions_agree (err : error) :
  Earlier.categorizeRequestError err = categorizeRequestError err.
Proof.
  unfold Earlier.categorizeRequestError, categorizeRequestError.
  destruct (strings.Contains (Error err) "EOF"); [reflexivity|].
  destruct (as_net_Error err) as [e|]; [|reflexivity].
  destruct (Timeout e), (Temporary e); reflexivity.
Qed.

(** ** The shape of every call that ends *)

Lemma invocations_last_events (a : Z) (stopped : bool) :
  invocations (last_events a stopped) = 1%nat.
Proof. now destruct stopped. Qed.

Section Rounds.

Context {T B : Type} {client_T : http.Client T} {backoff_B : backoff.BackOff B}.
Variable conditioner : http.Response -> cond_result.
Variable req : http.Request.

Abbreviation op := (operation conditioner req).

Lemma client_after_S (n : nat) (t : T) :
  client_after (S n) t req = snd (http.Do (client_after n t req) req).
Proof.
  revert t. induction n as [|n IH]; intros t; [reflexivity|].
  change (client_after (S (S n)) t req)
    with (client_after (S n) (snd (http.Do t req)) req).
  now rewrite IH.
Qed.

Lemma backoffer_after_S (n : nat) (b : B) :
  backoffer_after (S n) b
  = snd (backoff.NextBackOff (backoffer_after n b)).
Proof.
  revert b. induction n as [|n IH]; intros b; [reflexivity|].
  change (backoffer_after (S (S n)) b)
    with (backoffer_after (S n) (snd (backoff.NextBackOff b))).
  now rewrite IH.
Qed.

(** The scheduler is asked after exactly the attempts that are classified
    Retry. *)
Lemma asks_scheduler_retried (o : http.DoResult) :
  asks_scheduler conditioner o = true <-> retried conditioner o.
Proof.
  unfold asks_scheduler, backoff.as_permanent.
  destruct o as [r | r reqErr]; simpl.
  - destruct (conditioner r) as [[|] [e|]]; simpl.
    + destruct (as_PermanentError e) as [e'|] eqn:Hw; split.
      * discriminate.
      * intros [e0 [[= <-] H]]. congruence.
      * eauto.
      * reflexivity.
    + split; [discriminate | intros [e0 [H _]]; discriminate].
    + split; [discriminate | intros [e0 [H _]]; discriminate].
    + split; [discriminate | intros [e0 [H _]]; discriminate].
  - destruct (categorizeRequestError_cases reqErr) as [H | H]; rewrite H;
      simpl.
    + destruct (as_PermanentError reqErr) as [e'|]; split;
        try discriminate; try reflexivity; try (now intros [_ ?]); eauto.
    + split; [discriminate | intros [? _]; discriminate].
Qed.

(** The last round, whichever of its forms it takes. *)
Lemma RetryLoop_terminal (fuel : nat) (l : Locals) (w : World T B) :
  terminal conditioner (fst (http.Do (httpClient w) req))
    (fst (backoff.NextBackOff (backoffer w))) ->
  RetryLoop (S fuel) op l w =
  Returns (error_of conditioner (fst (http.Do (httpClient w) req)),
           {| resp := resp_of (fst (http.Do (httpClient w) req));
              attempts := int_incr (attempts l) |})
    {| httpClient := snd (http.Do (httpClient w) req);
       backoffer :=
         if asks_scheduler conditioner (fst (http.Do (httpClient w) req))
         then snd (backoff.NextBackOff (backoffer w))
         else backoffer w;
       log := log w
                ++ last_events (int_incr (attempts l))
                     (asks_scheduler conditioner
                        (fst (http.Do (httpClient w) req))) |}.
Proof.
  unfold terminal, asks_scheduler, error_of. intros Hterm.
  cbn [RetryLoop]. unfold bind at 1. rewrite operation_step.
  destruct (verdict conditioner (fst (http.Do (httpClient w) req)))
    as [oe|]; [destruct (backoff.as_permanent oe) as [e|]|].
  - reflexivity.
  - unfold bind, backoffer_NextBackOff, emit, ret.
    cbn [backoffer log httpClient].
    destruct (backoff.NextBackOff (backoffer w)) as [d b'].
    cbn [fst snd] in *. rewrite (Hterm eq_refl). simpl.
    now rewrite <- app_assoc.
  - reflexivity.
Qed.

(** A loop that returns went through some number of retried rounds and
    then a terminal one. *)
Lemma RetryLoop_rounds (fuel : nat) :
  forall (l : Locals) (w w' : World T B) (res : option error * Locals),
  RetryLoop fuel op l w = Returns res w' ->
  exists n,
    (n < fuel)%nat /\
    Forall (retried conditioner) (outcomes n (httpClient w) req) /\
    Forall granted (delays n (backoffer w)) /\
    terminal conditioner
      (fst (http.Do (client_after n (httpClient w) req) req))
      (fst (backoff.NextBackOff (backoffer_after n (backoffer w)))).
Proof.
  induction fuel as [|fuel IH]; intros l w w' res Hrun; [discriminate|].
  cbn [RetryLoop] in Hrun. unfold bind at 1 in Hrun.
  rewrite operation_step in Hrun.
  destruct (asks_scheduler conditioner (fst (http.Do (httpClient w) req)))
    eqn:Hasks.
  - pose proof (proj1 (asks_scheduler_retried _) Hasks) as Hretried.
    unfold asks_scheduler in Hasks.
    destruct (verdict conditioner (fst (http.Do (httpClient w) req)))
      as [oe|]; [|discriminate].
    destruct (backoff.as_permanent oe) as [e|]; [discriminate|].
    unfold bind at 1, backoffer_NextBackOff, emit in Hrun.
    cbn [backoffer log httpClient] in Hrun.
    destruct (backoff.NextBackOff (backoffer w)) as [d b'] eqn:Hnext.
    destruct (Z.eqb_spec d backoff.Stop) as [Hd | Hd].
    + exists 0%nat. cbn [outcomes delays client_after backoffer_after].
      split; [lia|]. split; [constructor|]. split; [constructor|].
      unfold terminal. now rewrite Hnext.
    + unfold bind at 1, sleep, emit in Hrun.
      cbn [backoffer log httpClient] in Hrun.
      apply IH in Hrun. cbn [backoffer log httpClient] in Hrun.
      destruct Hrun as [n [Hn [Hout [Hdel Hterm]]]].
      exists (S n). cbn [outcomes delays client_after backoffer_after].
      rewrite Hnext. cbn [snd].
      destruct (http.Do (httpClient w) req) as [o t']. cbn [fst snd] in *.
      repeat split; [lia | now constructor | now constructor | exact Hterm].
  - exists 0%nat. cbn [outcomes delays client_after backoffer_after].
    split; [lia|]. split; [constructor|]. split; [constructor|].
    unfold terminal. rewrite Hasks. discriminate.
Qed.

(** Forwards: [n] retried rounds and a terminal one make the loop of a call
    return what the last round yields. *)
Lemma retrying_ends (n k : nat) (w : World T B) :
  Forall (retried conditioner) (outcomes n (httpClient w) req) ->
  Forall granted (delays n (backoff.Reset (backoffer w))) ->
  terminal conditioner
    (fst (http.Do (client_after n (httpClient w) req) req))
    (fst (backoff.NextBackOff
            (backoffer_after n (backoff.Reset (backoffer w))))) ->
  retrying conditioner (n + S k) req w =
  Returns (error_of conditioner
             (fst (http.Do (client_after n (httpClient w) req) req)),
           {| resp := resp_of
                        (fst (http.Do (client_after n (httpClient w) req) req));
              attempts := Nat.iter (S n) int_incr 0 |})
    {| httpClient := client_after (S n) (httpClient w) req;
       backoffer :=
         if asks_scheduler conditioner
              (fst (http.Do (client_after n (httpClient w) req) req))
         then backoffer_after (S n) (backoff.Reset (backoffer w))
         else backoffer_after n (backoff.Reset (backoffer w));
       log := log w
                ++ EvReset
                   :: retry_events 0
                        (delays n (backoff.Reset (backoffer w)))
                   ++ last_events (Nat.iter (S n) int_incr 0)
                        (asks_scheduler conditioner
                           (fst (http.Do
                                   (client_after n (httpClient w) req) req))) |}.
Proof.
  intros Hout Hdel Hterm.
  rewrite retrying_retried by assumption.
  rewrite RetryLoop_terminal by exact Hterm.
  cbn [world_at locals_at httpClient backoffer log attempts].
  rewrite client_after_S, backoffer_after_S, <- app_assoc. reflexivity.
Qed.

(** Backwards: a loop that returns, returned this. *)
Lemma retrying_returns (fuel : nat) (w w' : World T B)
    (res : option error * Locals) :
  retrying conditioner fuel req w = Returns res w' ->
  exists n k,
    fuel = (n + S k)%nat /\
    Forall (retried conditioner) (outcomes n (httpClient w) req) /\
    Forall granted (delays n (backoff.Reset (backoffer w))) /\
    terminal conditioner
      (fst (http.Do (client_after n (httpClient w) req) req))
      (fst (backoff.NextBackOff
              (backoffer_after n (backoff.Reset (backoffer w))))).
Proof.
  unfold retrying, Retry, bind at 1, backoffer_Reset, emit. intros Hrun.
  apply RetryLoop_rounds in Hrun. cbn [httpClient backoffer] in Hrun.
  destruct Hrun as [n [Hn H]].
  exists n, (fuel - S n)%nat. split; [lia | exact H].
Qed.

End Rounds.

Section Properties.

Context {T B : Type} {client_T : http.Client T} {backoff_B : backoff.BackOff B}.
Variable conditioner : http.Response -> cond_result.
Variable req : http.Request.

Lemma iter_count (n : nat) :
  Z.of_nat n <= MaxInt -> Nat.iter n int_incr 0 = Z.of_nat n.
Proof.
  intros Hn. rewrite iter_incr_small; unfold MinInt, MaxInt, intSize in *; lia.
Qed.

(** A call whose last round left a response with its request returns. *)
Lemma call_ends (n k : nat) (w : World T B) (r : http.Response)
    (rq : http.Request) :
  Forall (retried conditioner) (outcomes n (httpClient w) req) ->
  Forall granted (delays n (backoff.Reset (backoffer w))) ->
  terminal conditioner
    (fst (http.Do (client_after n (httpClient w) req) req))
    (fst (backoff.NextBackOff
            (backoffer_after n (backoff.Reset (backoffer w))))) ->
  resp_of (fst (http.Do (client_after n (httpClient w) req) req)) = Some r ->
  http.Request_ r = Some rq ->
  Z.of_nat (S n) <= MaxInt ->
  exists r' w' evs,
    NewBackoffClient_Do conditioner (n + S k) req w
    = Returns
        (Some r',
         error_of conditioner
           (fst (http.Do (client_after n (httpClient w) req) req))) w' /\
    attached r r' /\
    Attempts (Some r') = Ok (Z.of_nat (S n)) /\
    log w' = log w ++ evs /\
    invocations evs = S n /\
    (n <= consultations evs <= S n)%nat.
Proof.
  intros Hout Hdel Hterm Hresp Hrq Hmax.
  pose proof (retrying_ends conditioner req n k w Hout Hdel Hterm) as Hretry.
  rewrite Hresp, (iter_count (S n) Hmax) in Hretry.
  destruct (Do_after_retrying _ _ _ _ _ _ _ _ Hretry rq Hrq)
    as [r' [HDo [Hatt HA]]].
  exists r'. eexists. eexists. split; [exact HDo|].
  split; [exact Hatt|]. split; [exact HA|]. cbn [log].
  split; [reflexivity|]. split.
  - rewrite invocations_call, invocations_last_events, delays_length. lia.
  - change (EvReset :: ?x) with ([EvReset] ++ x).
    rewrite !consultations_app, consultations_retry_events, delays_length.
    destruct (asks_scheduler _ _); unfold consultations; simpl; lia.
Qed.

(** X5. The result of the retry loop is that of its last attempt alone.
    The response variable holds what the last transport invocation handed
    back (nil after a failed one, even if an earlier attempt had obtained a
    response). The error is fixed by what the operation returned on that
    attempt ([error_of]): nil if it returned nil; the inner error if it
    returned a [*backoff.PermanentError], whether the engine built it or
    the transport or the conditioner handed it in; and otherwise the error
    itself. *)
Theorem retrying_reflects_last_attempt (fuel : nat) (w w' : World T B)
    (err : option error) (l : Locals) :
  retrying conditioner fuel req w = Returns (err, l) w' ->
  exists n,
    (n < fuel)%nat /\
    httpClient w' = client_after (S n) (httpClient w) req /\
    resp l = resp_of (fst (http.Do (client_after n (httpClient w) req) req)) /\
    err = error_of conditioner
            (fst (http.Do (client_after n (httpClient w) req) req)).
Proof.
  intros Hrun.
  destruct (retrying_returns _ _ _ _ _ _ Hrun) as [n [k [-> [Hout [Hdel Hterm]]]]].
  rewrite (retrying_ends conditioner req n k w Hout Hdel Hterm) in Hrun.
  injection Hrun as <- <- <-. exists n. cbn [httpClient resp].
  repeat split; lia.
Qed.

(** X6. The protocol with the scheduler. In every call whose loop ends,
    after some number [n] of attempts that were each classified Retry and
    granted a delay, the log is: one reset of the policy; for each of these
    [n] attempts the invocation, one question to the scheduler and a sleep
    of exactly the delay it granted; and then the last invocation, followed
    by a question to the scheduler exactly when that last attempt was
    classified Retry too, in which case the scheduler answered [Stop]. *)
Theorem retrying_trace (fuel : nat) (w w' : World T B) (err : option error)
    (l : Locals) :
  retrying conditioner fuel req w = Returns (err, l) w' ->
  exists n stopped,
    Forall (retried conditioner) (outcomes n (httpClient w) req) /\
    Forall granted (delays n (backoff.Reset (backoffer w))) /\
    (stopped = true <->
     retried conditioner
       (fst (http.Do (client_after n (httpClient w) req) req))) /\
    (stopped = true ->
     fst (backoff.NextBackOff
            (backoffer_after n (backoff.Reset (backoffer w))))
     = backoff.Stop) /\
    log w' = log w
               ++ EvReset
                  :: retry_events 0 (delays n (backoff.Reset (backoffer w)))
                  ++ last_events (attempts l) stopped.
Proof.
  intros Hrun.
  destruct (retrying_returns _ _ _ _ _ _ Hrun) as [n [k [-> [Hout [Hdel Hterm]]]]].
  rewrite (retrying_ends conditioner req n k w Hout Hdel Hterm) in Hrun.
  injection Hrun as <- <- <-.
  exists n.
  exists (asks_scheduler conditioner
            (fst (http.Do (client_after n (httpClient w) req) req))).
  cbn [log attempts].
  split; [assumption|]. split; [assumption|].
  split; [apply asks_scheduler_retried|]. split; [exact Hterm | reflexivity].
Qed.

(** X7. The engine has no limit of its own: if every attempt is classified
    Retry and the scheduler never answers [Stop], the call does not return,
    however many rounds it is given. *)
Theorem no_stop_no_return (w : World T B) :
  (forall n, Forall (retried conditioner) (outcomes n (httpClient w) req)) ->
  (forall n, Forall granted (delays n (backoff.Reset (backoffer w)))) ->
  forall fuel, NewBackoffClient_Do conditioner fuel req w = OutOfFuel.
Proof.
  intros Hout Hdel fuel. unfold NewBackoffClient_Do, bind.
  replace fuel with (fuel + 0)%nat by lia.
  now rewrite (retrying_retried conditioner req fuel 0 w (Hout fuel) (Hdel fuel)).
Qed.

(** X8. A conditioner that answers (true, nil) does not cause a retry: the
    nil error is tested first, so a response that has its [Request] is
    accepted, after that one invocation and without asking the
    scheduler. *)
Theorem nil_error_accepts_despite_shouldRetry (r : http.Response)
    (rq : http.Request) (w : World T B) (fuel : nat) :
  fst (http.Do (httpClient w) req) = http.DoOk r ->
  conditioner r = (true, None) ->
  http.Request_ r = Some rq ->
  (0 < fuel)%nat ->
  exists r' w',
    NewBackoffClient_Do conditioner fuel req w = Returns (Some r', None) w' /\
    attached r r' /\
    Attempts (Some r') = Ok 1 /\
    log w' = log w ++ [EvReset; EvDo 1].
Proof.
  intros Hfirst Hcond Hrq Hfuel.
  replace fuel with (0 + S (fuel - 1))%nat by lia.
  assert (Hv : verdict conditioner (fst (http.Do (httpClient w) req)) = None)
    by (rewrite Hfirst; simpl; now rewrite Hcond).
  pose proof (retrying_retried conditioner req 0 (S (fuel - 1)) w
                (Forall_nil _) (Forall_nil _)) as Hretry.
  rewrite (RetryLoop_nil conditioner req (fuel - 1)
             (locals_at req 0 w) (world_at req 0 w) Hv) in Hretry.
  rewrite (attempts_at req 0 w one_attempt_fits) in Hretry.
  cbn [world_at httpClient client_after backoffer backoffer_after log
         delays retry_events] in Hretry.
  rewrite Hfirst in Hretry. cbn [resp_of] in Hretry.
  destruct (Do_after_retrying _ _ _ _ _ _ _ _ Hretry rq Hrq)
    as [r' [HDo [Hatt HA]]].
  exists r'. eexists. split; [exact HDo|].
  split; [exact Hatt|]. split; [exact HA|].
  cbn [log]. now rewrite <- app_assoc.
Qed.

(** X9. A permanent transport error that comes with a response (as when
    the client's redirect check fails): the call returns that response,
    with count 1, together with the transport error itself, after one
    invocation and without asking the scheduler. *)
Theorem permanent_transport_error_with_response (r : http.Response)
    (rq : http.Request) (err : error) (w : World T B) (fuel : nat) :
  fst (http.Do (httpClient w) req) = http.DoErr (Some r) err ->
  categorizeRequestError err = backoff.Permanent err ->
  http.Request_ r = Some rq ->
  exists r' w',
    NewBackoffClient_Do conditioner (S fuel) req w
    = Returns (Some r', Some err) w' /\
    attached r r' /\
    Attempts (Some r') = Ok 1 /\
    log w' = log w ++ [EvReset; EvDo 1].
Proof.
  intros Hfirst Hperm Hrq.
  pose proof (permanent_transport_error_ends_retrying conditioner req
                (Some r) err w fuel Hfirst Hperm) as Hretry.
  destruct (Do_after_retrying _ _ _ _ _ _ _ _ Hretry rq Hrq)
    as [r' [HDo [Hatt HA]]].
  exists r'. eexists. split; [exact HDo|].
  split; [exact Hatt|]. split; [exact HA | reflexivity].
Qed.

(** X10. Whenever the call returns, with or without an error, the
    response it returns is not nil, at least one transport invocation was
    made, and the count read back from the response is the number of
    transport invocations of the call. *)
Theorem Do_returns_counted (fuel : nat) (w w' : World T B)
    (ro : option http.Response) (err : option error) :
  NewBackoffClient_Do conditioner fuel req w = Returns (ro, err) w' ->
  exists r' evs,
    ro = Some r' /\
    log w' = log w ++ evs /\
    (1 <= invocations evs)%nat /\
    (Z.of_nat (invocations evs) <= MaxInt ->
     Attempts (Some r') = Ok (Z.of_nat (invocations evs))).
Proof.
  unfold NewBackoffClient_Do, bind.
  destruct (retrying conditioner fuel req w) as [[err0 l] w0 | |] eqn:Hrun;
    try discriminate.
  unfold lift, ret.
  destruct (addAttemptsToRequest (resp l) (attempts l)) as [r'|] eqn:Hadd;
    [|discriminate].
  intros [= <- <- <-].
  destruct (retrying_returns _ _ _ _ _ _ Hrun) as [n [k [-> [Hout [Hdel Hterm]]]]].
  rewrite (retrying_ends conditioner req n k w Hout Hdel Hterm) in Hrun.
  injection Hrun as <- <- <-. cbn [resp attempts log] in *.
  exists r'. eexists. split; [reflexivity|]. split; [reflexivity|].
  rewrite invocations_call, invocations_last_events, delays_length.
  split; [lia|]. intros Hmax.
  destruct (resp_of _) as [r|]; [|discriminate].
  apply Attempts_attached in Hadd. destruct Hadd as [_ ->].
  f_equal. replace (n + 1)%nat with (S n) in * by lia.
  exact (iter_count (S n) Hmax).
Qed.

End Properties.

(** ** The default client *)

Section DefaultClient.

Context {T B : Type} {client_T : http.Client T} {backoff_B : backoff.BackOff B}.
Variable req : http.Request.

Lemma retried_5xx (rs : list http.Response) :
  Forall (fun x => 500 <= http.StatusCode x < 600) rs ->
  Forall (retried defaultConditioner) (map http.DoOk rs).
Proof.
  intros H. apply Forall_map. eapply Forall_impl; [|exact H].
  intros x Hx. simpl. rewrite (defaultConditioner_5xx x Hx). eauto.
Qed.

Lemma verdict_2xx (r : http.Response) :
  200 <= http.StatusCode r < 300 ->
  verdict defaultConditioner (http.DoOk r) = None.
Proof. intros Hr. simpl. now rewrite (defaultConditioner_2xx r Hr). Qed.

Lemma verdict_5xx (r : http.Response) :
  500 <= http.StatusCode r < 600 ->
  verdict defaultConditioner (http.DoOk r)
  = Some (backoff.Plain (bad_status_code (http.StatusCode r))).
Proof. intros Hr. simpl. now rewrite (defaultConditioner_5xx r Hr). Qed.

Lemma split_responses (rs : list http.Response) (r : http.Response) (t : T) :
  outcomes (S (List.length rs)) t req = map http.DoOk rs ++ [http.DoOk r] ->
  outcomes (List.length rs) t req = map http.DoOk rs /\
  fst (http.Do (client_after (List.length rs) t req) req) = http.DoOk r.
Proof.
  intros H. rewrite <- (length_map http.DoOk rs) in H.
  apply outcomes_last in H. now rewrite length_map in H.
Qed.

(** X12. The default client retries on 5xx until a 2xx: when the server
    answers with status codes in [500, 600), the scheduler granting a delay
    after each, and then with a code in [200, 300) in a response that has
    its [Request], the call returns that last response with a nil error,
    and its count is the number of responses received. *)
Theorem default_client_retries_until_2xx (rs : list http.Response)
    (r : http.Response) (rq : http.Request) (w : World T B) (fuel : nat) :
  outcomes (S (List.length rs)) (httpClient w) req
    = map http.DoOk rs ++ [http.DoOk r] ->
  Forall (fun x => 500 <= http.StatusCode x < 600) rs ->
  200 <= http.StatusCode r < 300 ->
  Forall granted (delays (List.length rs) (backoff.Reset (backoffer w))) ->
  http.Request_ r = Some rq ->
  Z.of_nat (S (List.length rs)) <= MaxInt ->
  (List.length rs < fuel)%nat ->
  exists r' w',
    NewDefaultBackoffClient5XX_Do fuel req w = Returns (Some r', None) w' /\
    attached r r' /\
    Attempts (Some r') = Ok (Z.of_nat (S (List.length rs))).
Proof.
  intros Hout Hrs Hr Hdel Hrq Hmax Hfuel.
  apply split_responses in Hout. destruct Hout as [Hout Hlast].
  replace fuel with (List.length rs + S (fuel - S (List.length rs)))%nat by lia.
  destruct (call_ends defaultConditioner req (List.length rs)
              (fuel - S (List.length rs)) w r rq)
    as [r' [w' [evs [HDo [Hatt [HA _]]]]]]; try assumption.
  - rewrite Hout. now apply retried_5xx.
  - unfold terminal, asks_scheduler. rewrite Hlast, (verdict_2xx r Hr).
    discriminate.
  - now rewrite Hlast.
  - exists r', w'. unfold NewDefaultBackoffClient5XX_Do. rewrite HDo.
    unfold error_of. rewrite Hlast, (verdict_2xx r Hr).
    split; [reflexivity|]. split; assumption.
Qed.

(** X13. The default client gives up when the scheduler stops: when the
    server answers 5xx every time, the last of these responses has its
    [Request], and the scheduler grants [length ds] delays and then answers
    [Stop], the call returns the last response together with the error
    "bad status code <its code>", and the count is [length ds + 1]. *)
Theorem default_client_gives_up_on_5xx (rs : list http.Response)
    (r : http.Response) (rq : http.Request) (ds : list backoff.Duration)
    (w : World T B) (fuel : nat) :
  outcomes (S (List.length rs)) (httpClient w) req
    = map http.DoOk rs ++ [http.DoOk r] ->
  Forall (fun x => 500 <= http.StatusCode x < 600) rs ->
  500 <= http.StatusCode r < 600 ->
  delays (S (List.length ds)) (backoff.Reset (backoffer w))
    = ds ++ [backoff.Stop] ->
  Forall granted ds ->
  List.length ds = List.length rs ->
  http.Request_ r = Some rq ->
  Z.of_nat (S (List.length rs)) <= MaxInt ->
  (List.length rs < fuel)%nat ->
  exists r' w',
    NewDefaultBackoffClient5XX_Do fuel req w
    = Returns (Some r', Some (bad_status_code (http.StatusCode r))) w' /\
    attached r r' /\
    Attempts (Some r') = Ok (Z.of_nat (S (List.length rs))).
Proof.
  intros Hout Hrs Hr Hdel Hds Hlen Hrq Hmax Hfuel.
  apply split_responses in Hout. destruct Hout as [Hout Hlast].
  apply delays_last in Hdel. destruct Hdel as [Hdel Hstop].
  rewrite Hlen in Hdel, Hstop.
  replace fuel with (List.length rs + S (fuel - S (List.length rs)))%nat by lia.
  destruct (call_ends defaultConditioner req (List.length rs)
              (fuel - S (List.length rs)) w r rq)
    as [r' [w' [evs [HDo [Hatt [HA _]]]]]]; try assumption.
  - rewrite Hout. now apply retried_5xx.
  - now rewrite Hdel.
  - intros _. exact Hstop.
  - now rewrite Hlast.
  - exists r', w'. unfold NewDefaultBackoffClient5XX_Do. rewrite HDo.
    unfold error_of. rewrite Hlast, (verdict_5xx r Hr).
    split; [reflexivity|]. split; assumption.
Qed.

(** X14. The default client does not retry other statuses: when the first
    response has its [Request] and a status code outside [200, 300) and
    [500, 600), the call returns it at once with the error
    "bad status code <code>" and count 1, after one transport invocation
    and without asking the scheduler. *)
Theorem default_client_fails_at_once (r : http.Response) (rq : http.Request)
    (w : World T B) (fuel : nat) :
  fst (http.Do (httpClient w) req) = http.DoOk r ->
  ~ 500 <= http.StatusCode r < 600 ->
  ~ 200 <= http.StatusCode r < 300 ->
  http.Request_ r = Some rq ->
  (0 < fuel)%nat ->
  exists r' w' evs,
    NewDefaultBackoffClient5XX_Do fuel req w
    = Returns (Some r', Some (bad_status_code (http.StatusCode r))) w' /\
    attached r r' /\
    Attempts (Some r') = Ok 1 /\
    log w' = log w ++ evs /\
    invocations evs = 1%nat /\
    consultations evs = 0%nat.
Proof.
  intros Hfirst H5 H2 Hrq Hfuel.
  replace fuel with (0 + S (fuel - 1))%nat by lia.
  pose proof (defaultConditioner_other r H5 H2) as Hcond.
  assert (Hv : verdict defaultConditioner (fst (http.Do (httpClient w) req))
               = Some (backoff.Permanent
                         (bad_status_code (http.StatusCode r))))
    by (rewrite Hfirst; simpl; now rewrite Hcond).
  pose proof (retrying_retried defaultConditioner req 0 (S (fuel - 1)) w
                (Forall_nil _) (Forall_nil _)) as Hretry.
  rewrite (RetryLoop_permanent defaultConditioner req (fuel - 1)
             (locals_at req 0 w) (world_at req 0 w) _ Hv) in Hretry.
  rewrite (attempts_at req 0 w one_attempt_fits) in Hretry.
  cbn [world_at httpClient client_after backoffer backoffer_after log
         delays retry_events] in Hretry.
  rewrite Hfirst in Hretry. cbn [resp_of] in Hretry.
  destruct (Do_after_retrying _ _ _ _ _ _ _ _ Hretry rq Hrq)
    as [r' [HDo [Hatt HA]]].
  exists r'. eexists. exists [EvReset; EvDo 1].
  unfold NewDefaultBackoffClient5XX_Do. split; [exact HDo|].
  split; [exact Hatt|]. split; [exact HA|].
  cbn [log]. rewrite <- app_assoc. split; [reflexivity|]. split; reflexivity.
Qed.

End DefaultClient.

(** ** Conditioners written with the helpers *)

Section Helpers.

Context {T B : Type} {client_T : http.Client T} {backoff_B : backoff.BackOff B}.
Variable conditioner : http.Response -> cond_result.
Variable req : http.Request.

(** X15. A conditioner that answers [PermanentError(msg)] for the first
    response, when that response has its [Request], stops the call there:
    one transport invocation, no question to the scheduler, the response
    returned with count 1 and an error whose text is [msg]. *)
Theorem PermanentError_stops_at_once (r : http.Response) (rq : http.Request)
    (msg : string) (w : World T B) (fuel : nat) :
  fst (http.Do (httpClient w) req) = http.DoOk r ->
  conditioner r = PermanentError msg ->
  http.Request_ r = Some rq ->
  (0 < fuel)%nat ->
  exists r' err w',
    NewBackoffClient_Do conditioner fuel req w = Returns (Some r', Some err) w' /\
    Error err = msg /\
    attached r r' /\
    Attempts (Some r') = Ok 1 /\
    log w' = log w ++ [EvReset; EvDo 1].
Proof.
  intros Hfirst Hcond Hrq Hfuel.
  replace fuel with (0 + S (fuel - 1))%nat by lia.
  assert (Hv : verdict conditioner (fst (http.Do (httpClient w) req))
               = Some (backoff.Permanent (errors_New msg)))
    by (rewrite Hfirst; simpl; now rewrite Hcond).
  pose proof (retrying_retried conditioner req 0 (S (fuel - 1)) w
                (Forall_nil _) (Forall_nil _)) as Hretry.
  rewrite (RetryLoop_permanent conditioner req (fuel - 1)
             (locals_at req 0 w) (world_at req 0 w) _ Hv) in Hretry.
  rewrite (attempts_at req 0 w one_attempt_fits) in Hretry.
  cbn [world_at httpClient client_after backoffer backoffer_after log
         delays retry_events] in Hretry.
  rewrite Hfirst in Hretry. cbn [resp_of] in Hretry.
  destruct (Do_after_retrying _ _ _ _ _ _ _ _ Hretry rq Hrq)
    as [r' [HDo [Hatt HA]]].
  exists r', (errors_New msg). eexists. split; [exact HDo|].
  split; [reflexivity|]. split; [exact Hatt|]. split; [exact HA|].
  cbn [log]. now rewrite <- app_assoc.
Qed.

(** X16. A conditioner that answers [RetriableError(msg)] for the first
    response and [OK()] for the second, when the second response has its
    [Request], makes the call ask the scheduler once, sleep for the delay
    it grants, try again, and return the second response with a nil error
    and count 2. *)
Theorem RetriableError_then_OK (r1 r2 : http.Response) (rq : http.Request)
    (msg : string) (d : backoff.Duration) (w : World T B) (fuel : nat) :
  outcomes 2 (httpClient w) req = [http.DoOk r1; http.DoOk r2] ->
  conditioner r1 = RetriableError msg ->
  conditioner r2 = OK ->
  fst (backoff.NextBackOff (backoff.Reset (backoffer w))) = d ->
  d <> backoff.Stop ->
  http.Request_ r2 = Some rq ->
  (1 < fuel)%nat ->
  exists r' w',
    NewBackoffClient_Do conditioner fuel req w = Returns (Some r', None) w' /\
    attached r2 r' /\
    Attempts (Some r') = Ok 2 /\
    log w' = log w ++ [EvReset; EvDo 1; EvNextBackOff d; EvSleep d; EvDo 2].
Proof.
  intros Hout Hc1 Hc2 Hd Hgranted Hrq Hfuel.
  change [http.DoOk r1; http.DoOk r2]
    with ([http.DoOk r1] ++ [http.DoOk r2]) in Hout.
  apply (outcomes_last req [http.DoOk r1]) in Hout.
  destruct Hout as [Hout Hlast]. cbn [List.length] in Hout, Hlast.
  replace fuel with (1 + S (fuel - 2))%nat by lia.
  assert (Hdel : delays 1 (backoff.Reset (backoffer w)) = [d]).
  { simpl. destruct (backoff.NextBackOff (backoff.Reset (backoffer w))).
    simpl in Hd. now subst. }
  assert (Hv : verdict conditioner
                 (fst (http.Do (client_after 1 (httpClient w) req) req)) = None)
    by (rewrite Hlast; simpl; now rewrite Hc2).
  assert (Hterm : terminal conditioner
            (fst (http.Do (client_after 1 (httpClient w) req) req))
            (fst (backoff.NextBackOff
                    (backoffer_after 1 (backoff.Reset (backoffer w))))))
    by (unfold terminal, asks_scheduler; rewrite Hv; discriminate).
  assert (Hretried : Forall (retried conditioner)
                       (outcomes 1 (httpClient w) req)).
  { rewrite Hout. constructor; [|constructor]. simpl. rewrite Hc1.
    unfold RetriableError. eexists. split; reflexivity. }
  assert (Hgr : Forall granted (delays 1 (backoff.Reset (backoffer w))))
    by (rewrite Hdel; constructor; [exact Hgranted | constructor]).
  pose proof (retrying_ends conditioner req 1 (fuel - 2) w
                Hretried Hgr Hterm) as Hretry.
  unfold asks_scheduler, error_of in Hretry.
  rewrite Hv, Hdel, Hlast in Hretry.
  cbn [resp_of last_events retry_events app] in Hretry.
  change (Nat.iter 2 int_incr 0) with 2 in Hretry.
  change (int_incr 0) with 1 in Hretry.
  destruct (Do_after_retrying _ _ _ _ _ _ _ _ Hretry rq Hrq)
    as [r' [HDo [Hatt HA]]].
  exists r'. eexists. split; [exact HDo|].
  split; [exact Hatt|]. split; [exact HA | reflexivity].
Qed.

End Helpers.

(** ** Further runs on scripted collaborators *)

(** A 500 is answered, then the connection times out and the policy stops:
    the response of the first attempt is gone. *)
Lemma retrying_reflects_last_attempt_witness :
  exists n,
    (n < 5)%nat /\
    ([] : list http.DoResult)
    = client_after (S n)
        [http.DoOk (status 500); http.DoErr None timeout] get /\
    None = resp_of (fst (http.Do
                           (client_after n
                              [http.DoOk (status 500);
                               http.DoErr None timeout] get) get)) /\
    Some timeout
    = error_of defaultConditioner
        (fst (http.Do
                (client_after n
                   [http.DoOk (status 500); http.DoErr None timeout] get)
                get)).
Proof.
  apply (retrying_reflects_last_attempt defaultConditioner get 5
           (world [http.DoOk (status 500); http.DoErr None timeout] [500])
           {| httpClient := [];
              backoffer := {| plan := [500]; remaining := [] |};
              log := [EvReset; EvDo 1; EvNextBackOff 500; EvSleep 500;
                      EvDo 2; EvNextBackOff backoff.Stop] |}
           (Some timeout) {| resp := None; attempts := 2 |}).
  reflexivity.
Defined.

Lemma retrying_trace_witness :
  exists n stopped,
    Forall (retried defaultConditioner)
      (outcomes n [http.DoErr None timeout; http.DoOk (status 200)] get) /\
    Forall granted (delays n (backoff.Reset (new_Plan [500; 750]))) /\
    (stopped = true <->
     retried defaultConditioner
       (fst (http.Do
               (client_after n
                  [http.DoErr None timeout; http.DoOk (status 200)] get)
               get))) /\
    (stopped = true ->
     fst (backoff.NextBackOff
            (backoffer_after n (backoff.Reset (new_Plan [500; 750]))))
     = backoff.Stop) /\
    [EvReset; EvDo 1; EvNextBackOff 500; EvSleep 500; EvDo 2]
    = [] ++ EvReset
         :: retry_events 0 (delays n (backoff.Reset (new_Plan [500; 750])))
         ++ last_events 2 stopped.
Proof.
  apply (retrying_trace defaultConditioner get 5
           (world [http.DoErr None timeout; http.DoOk (status 200)] [500; 750])
           {| httpClient := [];
              backoffer := {| plan := [500; 750]; remaining := [750] |};
              log := [EvReset; EvDo 1; EvNextBackOff 500; EvSleep 500;
                      EvDo 2] |}
           None {| resp := Some (status 200); attempts := 2 |}).
  reflexivity.
Defined.

Lemma steady_outcomes (n : nat) (s : Steady) (req : http.Request) :
  outcomes n s req = repeat (answer s) n.
Proof. induction n as [|n IH]; simpl; [reflexivity | now rewrite IH]. Qed.

Lemma constant_delays (n : nat) (b : ConstantBackOff) :
  delays n b = repeat (Interval b) n.
Proof. induction n as [|n IH]; simpl; [reflexivity | now rewrite IH]. Qed.

(** What holds of the one answer holds of all the answers. *)
Lemma always_the_same {A : Type} (P : A -> Prop) (x : A) (n : nat) :
  P x -> Forall P (repeat x n).
Proof.
  intros Hx. apply Forall_forall. intros y Hy.
  now rewrite (repeat_spec n x y Hy).
Qed.

(** A server that is down for good, behind a constant backoff. *)
Lemma no_stop_no_return_witness :
  NewBackoffClient_Do defaultConditioner 1000 get
    {| httpClient := {| answer := http.DoOk (status 503) |};
       backoffer := {| Interval := 500 |};
       log := [] |}
  = OutOfFuel.
Proof.
  apply (no_stop_no_return defaultConditioner get
           {| httpClient := {| answer := http.DoOk (status 503) |};
              backoffer := {| Interval := 500 |};
              log := [] |}).
  - intros n. simpl httpClient. rewrite steady_outcomes.
    apply always_the_same. eexists. split; reflexivity.
  - intros n. simpl. rewrite constant_delays.
    apply always_the_same. discriminate.
Defined.

Lemma nil_error_accepts_despite_shouldRetry_witness :
  exists r' w',
    NewBackoffClient_Do (fun _ => (true, None)) 5 get
      (world [http.DoOk (status 500)] [500])
    = Returns (Some r', None) w' /\
    attached (status 500) r' /\
    Attempts (Some r') = Ok 1 /\
    log w' = [] ++ [EvReset; EvDo 1].
Proof.
  apply (nil_error_accepts_despite_shouldRetry (fun _ => (true, None)) get
           (status 500) get (world [http.DoOk (status 500)] [500]) 5).
  - reflexivity.
  - reflexivity.
  - reflexivity.
  - lia.
Defined.

Lemma permanent_transport_error_with_response_witness :
  exists r' w',
    NewBackoffClient_Do defaultConditioner 5 get
      (world [http.DoErr (Some (status 302)) unsupported_scheme] [500])
    = Returns (Some r', Some unsupported_scheme) w' /\
    attached (status 302) r' /\
    Attempts (Some r') = Ok 1 /\
    log w' = [] ++ [EvReset; EvDo 1].
Proof.
  apply (permanent_transport_error_with_response defaultConditioner get
           (status 302) get unsupported_scheme
           (world [http.DoErr (Some (status 302)) unsupported_scheme] [500]) 4).
  - reflexivity.
  - reflexivity.
  - reflexivity.
Defined.

Lemma Do_returns_counted_witness :
  exists r' evs,
    Some {| http.StatusCode := 200;
            http.Request_ :=
              Some (http.WithContext get
                      [(context.contextKeyAttempts, context.AnyInt 2)]) |}
    = Some r' /\
    [EvReset; EvDo 1; EvNextBackOff 500; EvSleep 500; EvDo 2] = [] ++ evs /\
    (1 <= invocations evs)%nat /\
    (Z.of_nat (invocations evs) <= MaxInt ->
     Attempts (Some r') = Ok (Z.of_nat (invocations evs))).
Proof.
  apply (Do_returns_counted defaultConditioner get 5
           (world [http.DoOk (status 500); http.DoOk (status 200)] [500; 750])
           {| httpClient := [];
              backoffer := {| plan := [500; 750]; remaining := [750] |};
              log := [EvReset; EvDo 1; EvNextBackOff 500; EvSleep 500;
                      EvDo 2] |}
           _ None).
  reflexivity.
Defined.

Lemma default_client_retries_until_2xx_witness :
  exists r' w',
    NewDefaultBackoffClient5XX_Do 5 get
      (world [http.DoOk (status 500); http.DoOk (status 503);
              http.DoOk (status 204)] [500; 750; 1125])
    = Returns (Some r', None) w' /\
    attached (status 204) r' /\
    Attempts (Some r') = Ok 3.
Proof.
  apply (default_client_retries_until_2xx get
           [status 500; status 503] (status 204) get
           (world [http.DoOk (status 500); http.DoOk (status 503);
                   http.DoOk (status 204)] [500; 750; 1125]) 5).
  - reflexivity.
  - repeat constructor; simpl; lia.
  - simpl. lia.
  - repeat constructor; discriminate.
  - reflexivity.
  - discriminate.
  - simpl. lia.
Defined.

Lemma default_client_gives_up_on_5xx_witness :
  exists r' w',
    NewDefaultBackoffClient5XX_Do 5 get
      (world [http.DoOk (status 500); http.DoOk (status 503)] [500])
    = Returns (Some r', Some (bad_status_code 503)) w' /\
    attached (status 503) r' /\
    Attempts (Some r') = Ok 2.
Proof.
  apply (default_client_gives_up_on_5xx get
           [status 500] (status 503) get [500]
           (world [http.DoOk (status 500); http.DoOk (status 503)] [500]) 5).
  - reflexivity.
  - repeat constructor; simpl; lia.
  - simpl. lia.
  - reflexivity.
  - repeat constructor; discriminate.
  - reflexivity.
  - reflexivity.
  - discriminate.
  - simpl. lia.
Defined.

Lemma default_client_fails_at_once_witness :
  exists r' w' evs,
    NewDefaultBackoffClient5XX_Do 5 get
      (world [http.DoOk (status 404)] [500; 750])
    = Returns (Some r', Some (bad_status_code 404)) w' /\
    attached (status 404) r' /\
    Attempts (Some r') = Ok 1 /\
    log w' = [] ++ evs /\
    invocations evs = 1%nat /\
    consultations evs = 0%nat.
Proof.
  apply (default_client_fails_at_once get (status 404) get
           (world [http.DoOk (status 404)] [500; 750]) 5).
  - reflexivity.
  - simpl. lia.
  - simpl. lia.
  - reflexivity.
  - lia.
Defined.

(** The conditioner of the repository's test [TestRequestRetries]. *)
Lemma RetriableError_then_OK_witness :
  exists r' w',
    NewBackoffClient_Do
      (fun resp => if (http.StatusCode resp =? 500)%Z
                   then RetriableError "bad" else OK)
      5 get
      (world [http.DoOk (status 500); http.DoOk (status 200)] [500; 750])
    = Returns (Some r', None) w' /\
    attached (status 200) r' /\
    Attempts (Some r') = Ok 2 /\
    log w' = [] ++ [EvReset; EvDo 1; EvNextBackOff 500; EvSleep 500; EvDo 2].
Proof.
  apply (RetriableError_then_OK
           (fun resp => if (http.StatusCode resp =? 500)%Z
                        then RetriableError "bad" else OK)
           get (status 500) (status 200) get "bad" 500
           (world [http.DoOk (status 500); http.DoOk (status 200)] [500; 750])
           5).
  - reflexivity.
  - reflexivity.
  - reflexivity.
  - reflexivity.
  - discriminate.
  - reflexivity.
  - lia.
Defined.

(** The conditioner of the repository's test
    [TestRequestReturnsErrImmediately]. *)
Lemma PermanentError_stops_at_once_witness :
  exists r' err w',
    NewBackoffClient_Do
      (fun resp => if (http.StatusCode resp =? 404)%Z
                   then PermanentError "bad" else OK)
      5 get (world [http.DoOk (status 404)] [500; 750])
    = Returns (Some r', Some err) w' /\
    Error err = "bad" /\
    attached (status 404) r' /\
    Attempts (Some r') = Ok 1 /\
    log w' = [] ++ [EvReset; EvDo 1].
Proof.
  apply (PermanentError_stops_at_once
           (fun resp => if (http.StatusCode resp =? 404)%Z
                        then PermanentError "bad" else OK)
           get (status 404) get "bad"
           (world [http.DoOk (status 404)] [500; 750]) 5).
  - reflexivity.
  - reflexivity.
  - reflexivity.
  - lia.
Defined.
